(** * cliff-map: tile naming, slope pipeline and COG proxy

    A shallow embedding of the pure parts of the cliff-map viewer
    ([lib/cog-utils.ts], [lib/slope-utils.ts]) and of the request handler of
    the COG proxy route, together with the properties stated about them.

    Numbers.  A JavaScript number is idealised as an exact number: a
    rational ([Q]) in the tile-name helpers, where only [Math.floor] and
    printing of an integer are involved, and a real ([R]) extended by [NaN]
    in the slope code, where [Math.atan], [Math.sin] and friends appear.
    Rounding of the arithmetic of IEEE doubles is not modelled.  Doubles
    show in three places: the printing of whole numbers from [2^53] on
    (rounded digits, exponent notation), the quarter turn that [Math.atan]
    returns for very large arguments, and loop counters, which count one by
    one only within [2^53]; statements about loops say so. *)

From Stdlib Require Import ZArith QArith Qround String Ascii List Bool.
From Stdlib Require Import DecimalString Lia.
From Stdlib Require Import Reals Lra.
Import ListNotations.

(* ------------------------------------------------------------------ *)
(** ** Strings as the code uses them *)

Module JsString.
Open Scope string_scope.

(** The decimal digits of an integer, with a minus sign below zero. *)
Definition decimal (n : Z) : string :=
  NilZero.string_of_int (Z.to_int n).

(** A double at or above [2^53] is a whole number [x = m * ulp] with
    [2^52 <= m < 2^53] and [ulp] a power of two.  [roundsTo x v] tells
    whether the whole number [v] is read back as the double [x]: it lies
    within half a gap of [x], the ends counting when [m] is even.  The gap
    below a power of two is half the gap above it.  Distances are taken four
    times, which keeps them whole. *)
Definition roundsTo (x v : Z) : bool :=
  let p := Z.log2 x in
  let ulp := (2 ^ (p - 52))%Z in
  let m := (x / ulp)%Z in
  let above := (2 * ulp)%Z in
  let below := if (m =? 2 ^ 52)%Z then ulp else (2 * ulp)%Z in
  let d := (4 * (v - x))%Z in
  if Z.even m then (- below <=? d)%Z && (d <=? above)%Z
  else (- below <? d)%Z && (d <? above)%Z.

(** The number with the fewest significant digits that is read back as
    [x], the nearest one to [x] among those; [digits] is the number of
    decimal digits of [x] and [counts] the digit counts to try. *)
Fixpoint shortestFrom (x digits : Z) (counts : list Z) : Z :=
  match counts with
  | [] => x
  | k :: rest =>
      if (digits <? k)%Z then x
      else
        let scale := (10 ^ (digits - k))%Z in
        let c1 := (x / scale * scale)%Z in
        let c2 := (c1 + scale)%Z in
        match roundsTo x c1, roundsTo x c2 with
        | true, true =>
            if (x - c1 <? c2 - x)%Z then c1
            else if (c2 - x <? x - c1)%Z then c2
            else if Z.even (c1 / scale) then c1 else c2
        | true, false => c1
        | false, true => c2
        | false, false => shortestFrom x digits rest
        end
  end.

(** Seventeen digits tell any two doubles apart. *)
Definition shortest (x : Z) : Z :=
  shortestFrom x (Z.of_nat (String.length (decimal x)))
    [1; 2; 3; 4; 5; 6; 7; 8; 9; 10; 11; 12; 13; 14; 15; 16; 17]%Z.

Fixpoint stripZeros (s : string) : string :=
  match s with
  | EmptyString => EmptyString
  | String c rest =>
      let r := stripZeros rest in
      if Ascii.eqb c "0" && (String.length r =? 0)%nat then EmptyString
      else String c r
  end.

(** Exponent notation: the significant digits, a point after the first one
    when there are more, then [e+] and the power of ten. *)
Definition exponential (v : Z) : string :=
  let n := Z.of_nat (String.length (decimal v)) in
  match stripZeros (decimal v) with
  | EmptyString => "0"
  | String c EmptyString => String c "e+" ++ decimal (n - 1)
  | String c rest => String c "." ++ rest ++ "e+" ++ decimal (n - 1)
  end.

(** [x.toString()] for a whole number [x >= 0]: below [2^53] every digit is
    exact; from there on the shortest digits that identify the double are
    printed, followed by zeros up to 21 digits and in exponent notation
    beyond. *)
Definition unsignedToString (x : Z) : string :=
  if (x <? 2 ^ 53)%Z then decimal x
  else
    let v := shortest x in
    if (String.length (decimal v) <=? 21)%nat then decimal v
    else exponential v.

(** [n.toString()] for a double [n] that is a whole number. *)
Definition Number_toString (n : Z) : string :=
  if (n <? 0)%Z then "-" ++ unsignedToString (- n) else unsignedToString n.

(** [fill.repeat(n)]. *)
Fixpoint repeat_string (fill : string) (n : nat) : string :=
  match n with
  | O => ""
  | S k => fill ++ repeat_string fill k
  end.

(** [s.padStart(targetLength, fill)]: nothing is added when [s] is already
    long enough or [fill] is empty; otherwise [fill] is repeated and cut to
    the missing length. *)
Definition padStart (s : string) (targetLength : nat) (fill : string) : string :=
  let len := String.length s in
  if (targetLength <=? len)%nat || (String.length fill =? 0)%nat then s
  else
    let missing := (targetLength - len)%nat in
    substring 0 missing (repeat_string fill missing) ++ s.

(** [parts.join(sep)]. *)
Fixpoint join (sep : string) (parts : list string) : string :=
  match parts with
  | [] => ""
  | [p] => p
  | p :: rest => p ++ sep ++ join sep rest
  end.
End JsString.

(* ------------------------------------------------------------------ *)
(** ** lib/cog-utils.ts *)

Module CogUtils.
Import JsString.
Open Scope string_scope.

(** [Math.floor] on an exact number. *)
Definition Math_floor (x : Q) : Z := Qfloor x.

Definition Math_abs (n : Z) : Z := Z.abs n.

(** [getCopernicusTileUrl(lat, lon)]; the pair holds the local [tileName]
    and the returned URL. *)
Definition getCopernicusTileUrl_parts (lat lon : Q) : string * string :=
  let tileLat := Math_floor lat in
  let tileLon := Math_floor lon in
  let latPrefix := if (tileLat >=? 0)%Z then "N" else "S" in
  let lonPrefix := if (tileLon >=? 0)%Z then "E" else "W" in
  let latStr := padStart (Number_toString (Math_abs tileLat)) 2 "0" in
  let lonStr := padStart (Number_toString (Math_abs tileLon)) 3 "0" in
  let tileName :=
    "Copernicus_DSM_COG_10_" ++ latPrefix ++ latStr ++ "_00_"
      ++ lonPrefix ++ lonStr ++ "_00_DEM" in
  (tileName,
   "https://copernicus-dem-30m.s3.amazonaws.com/" ++ tileName ++ "/"
     ++ tileName ++ ".tif").

Definition getCopernicusTileUrl (lat lon : Q) : string :=
  snd (getCopernicusTileUrl_parts lat lon).

(** [getCogProtocolUrl(lat, lon)]; [origin] is [window.location.origin].
    The body repeats the tile-name computation of the function above. *)
Definition getCogProtocolUrl_parts (origin : string) (lat lon : Q)
  : string * string :=
  let tileLat := Math_floor lat in
  let tileLon := Math_floor lon in
  let latPrefix := if (tileLat >=? 0)%Z then "N" else "S" in
  let lonPrefix := if (tileLon >=? 0)%Z then "E" else "W" in
  let latStr := padStart (Number_toString (Math_abs tileLat)) 2 "0" in
  let lonStr := padStart (Number_toString (Math_abs tileLon)) 3 "0" in
  let tileName :=
    "Copernicus_DSM_COG_10_" ++ latPrefix ++ latStr ++ "_00_"
      ++ lonPrefix ++ lonStr ++ "_00_DEM" in
  let proxyPath := "/api/cog/" ++ tileName ++ "/" ++ tileName ++ ".tif" in
  (tileName, "cog://" ++ origin ++ proxyPath ++ "#dem").

Definition getCogProtocolUrl (origin : string) (lat lon : Q) : string :=
  snd (getCogProtocolUrl_parts origin lat lon).

(** The tile identifier as the naming convention words it: hemisphere
    letter by the sign of the whole degree (zero counts as non-negative),
    then the magnitude in decimal, filled with zeros on the left up to
    [width] digits. *)
Definition zero_padded (width : nat) (magnitude : Z) : string :=
  let digits := decimal magnitude in
  repeat_string "0" (width - String.length digits) ++ digits.

Definition canonicalTileName (latDeg lonDeg : Z) : string :=
  "Copernicus_DSM_COG_10_"
    ++ (if (0 <=? latDeg)%Z then "N" else "S") ++ zero_padded 2 (Z.abs latDeg)
    ++ "_00_"
    ++ (if (0 <=? lonDeg)%Z then "E" else "W") ++ zero_padded 3 (Z.abs lonDeg)
    ++ "_00_DEM".
End CogUtils.

(* ------------------------------------------------------------------ *)
(** ** Numbers of the slope code: a real or [NaN] *)

Module JsNum.
Open Scope R_scope.

Inductive num : Type :=
| Num (x : R)
| NaN.

Definition lift1 (f : R -> R) (a : num) : num :=
  match a with
  | Num x => Num (f x)
  | NaN => NaN
  end.

Definition lift2 (f : R -> R -> R) (a b : num) : num :=
  match a, b with
  | Num x, Num y => Num (f x y)
  | _, _ => NaN
  end.

Definition nadd : num -> num -> num := lift2 Rplus.
Definition nsub : num -> num -> num := lift2 Rminus.
Definition nmul : num -> num -> num := lift2 Rmult.

(** [a / c] for a literal [c] other than zero. *)
Definition ndivc (a : num) (c : R) : num := lift1 (fun x => x / c) a.

(** [a < b]; false as soon as one side is [NaN]. *)
Definition nlt (a b : num) : bool :=
  match a, b with
  | Num x, Num y => if Rlt_dec x y then true else false
  | _, _ => false
  end.

Definition Math_abs : num -> num := lift1 Rabs.
Definition Math_sin : num -> num := lift1 sin.
Definition Math_cos : num -> num := lift1 cos.

(** [Math.sqrt]: [NaN] below zero. *)
Definition Math_sqrt (a : num) : num :=
  match a with
  | Num x => if Rlt_dec x 0 then NaN else Num (sqrt x)
  | NaN => NaN
  end.

(** [Math.atan2(y, x)] on reals: the angle of the point [(x, y)]. *)
Definition atan2 (y x : R) : R :=
  if Rlt_dec 0 x then atan (y / x)
  else if Rlt_dec x 0 then
    (if Rlt_dec y 0 then atan (y / x) - PI else atan (y / x) + PI)
  else if Rlt_dec 0 y then PI / 2
  else if Rlt_dec y 0 then - (PI / 2)
  else 0.

Definition Math_atan2 : num -> num -> num := lift2 atan2.

(** [Math.atan] on a real.  From [2^66 = 73786976294838206464] on, the
    library stops computing and returns its constant for the quarter turn,
    the double nearest to [PI / 2]; that double is read as [PI / 2] here,
    so that the quarter turn times [180 / Math.PI] is the 90 the code
    gets. *)
Definition arcTangent (x : R) : R :=
  if Rle_dec 73786976294838206464 x then PI / 2
  else if Rle_dec x (- 73786976294838206464) then - (PI / 2)
  else atan x.

Definition Math_atan : num -> num := lift1 arcTangent.

(** [Math.max(a, b)] and [Math.min(a, b)]: [NaN] wins. *)
Definition Math_max2 : num -> num -> num := lift2 Rmax.
Definition Math_min2 : num -> num -> num := lift2 Rmin.

(** [Math.round]: the nearest integer, halves going up. *)
Definition Math_round : num -> num :=
  lift1 (fun x => IZR (Zfloor (x + / 2))).
End JsNum.

(* ------------------------------------------------------------------ *)
(** ** lib/cliff-detector.ts: the earlier slope helper *)

Module CliffDetector.
Import JsNum.
Open Scope R_scope.

(** [Math.atan(heightDiff / horizontalDist) * (180 / Math.PI)], with no
    guard on the distance.  Dividing by zero gives [+Infinity] for a
    positive numerator, [-Infinity] for a negative one and [NaN] for
    [0 / 0]; [Math.atan] sends the infinities to [PI / 2] and [- PI / 2]. *)
Definition calculateSlopeAngle (heightDiff horizontalDist : R) : num :=
  if Req_dec_T horizontalDist 0 then
    if Rlt_dec 0 heightDiff then Num (PI / 2 * (180 / PI))
    else if Rlt_dec heightDiff 0 then Num (- (PI / 2) * (180 / PI))
    else NaN
  else Num (arcTangent (heightDiff / horizontalDist) * (180 / PI)).
End CliffDetector.

(* ------------------------------------------------------------------ *)
(** ** lib/slope-utils.ts *)

Module SlopeUtils.
Import JsNum.
Open Scope R_scope.

(** What an index into the elevation matrix yields: a number, [null], or
    [undefined] when the index lies outside the array. *)
Inductive sample : Type :=
| Elevation (x : R)
| Null
| Undefined.

Record SlopeCell : Type := mkSlopeCell {
  lng : num;
  lat : num;
  slope : num;
  elevation : sample
}.

(** The value of a sample inside an arithmetic expression. *)
Definition toNumber (v : sample) : num :=
  match v with
  | Elevation x => Num x
  | Null => Num 0
  | Undefined => NaN
  end.

Definition is_null (v : sample) : bool :=
  match v with
  | Null => true
  | _ => false
  end.

(** [calculateSlopeAngle(elevDiff, distance)]. *)
Definition calculateSlopeAngle (elevDiff distance : num) : num :=
  match distance with
  | Num d =>
      if Req_dec_T d 0 then Num 0
      else nmul (Math_atan (ndivc (Math_abs elevDiff) d)) (Num (180 / PI))
  | NaN => NaN
  end.

(** The constant [a] of [haversineDistance]. *)
Definition haversine_a (lat1 lng1 lat2 lng2 : num) : num :=
  let dLat := nmul (nsub lat2 lat1) (Num (PI / 180)) in
  let dLng := nmul (nsub lng2 lng1) (Num (PI / 180)) in
  nadd
    (nmul (Math_sin (ndivc dLat 2)) (Math_sin (ndivc dLat 2)))
    (nmul
       (nmul
          (nmul (Math_cos (nmul lat1 (Num (PI / 180))))
                (Math_cos (nmul lat2 (Num (PI / 180)))))
          (Math_sin (ndivc dLng 2)))
       (Math_sin (ndivc dLng 2))).

(** [haversineDistance(lat1, lng1, lat2, lng2)]. *)
Definition haversineDistance (lat1 lng1 lat2 lng2 : num) : num :=
  let R := Num 6371000 in
  let a := haversine_a lat1 lng1 lat2 lng2 in
  let c :=
    nmul (Num 2) (Math_atan2 (Math_sqrt a) (Math_sqrt (nsub (Num 1) a))) in
  nmul R c.

(** [elevations[j]?.[i]]; inside the loops, where [elevations[j]] exists,
    this is also [elevations[j][i]]. *)
Definition elevationAt (elevations : list (list (option R))) (j i : nat)
  : sample :=
  match nth_error elevations j with
  | None => Undefined
  | Some row =>
      match nth_error row i with
      | None => Undefined
      | Some None => Null
      | Some (Some x) => Elevation x
      end
  end.

(** [coords[i]] read as a number. *)
Definition coordAt (coords : list R) (i : nat) : num :=
  match nth_error coords i with
  | Some x => Num x
  | None => NaN
  end.

(** [slopes.length > 0 ? Math.max(...slopes) : 0]. *)
Definition maxSlopeOf (slopes : list num) : num :=
  match slopes with
  | [] => Num 0
  | s :: rest => fold_left Math_max2 rest s
  end.

(** The [slopes] array of one loop iteration: one entry per neighbour that
    is not [null], pushed in the order right, up, diagonal. *)
Definition directionalSlopes (elevations : list (list (option R)))
    (lngs lats : list R) (j i : nat) : list num :=
  let elev := elevationAt elevations j i in
  let elevRight := elevationAt elevations j (i + 1) in
  let elevUp := elevationAt elevations (j + 1) i in
  let elevDiag := elevationAt elevations (j + 1) (i + 1) in
  let distRight :=
    haversineDistance (coordAt lats j) (coordAt lngs i)
                      (coordAt lats j) (coordAt lngs (i + 1)) in
  let distUp :=
    haversineDistance (coordAt lats j) (coordAt lngs i)
                      (coordAt lats (j + 1)) (coordAt lngs i) in
  (if is_null elevRight then []
   else [calculateSlopeAngle (nsub (toNumber elevRight) (toNumber elev))
                             distRight])
  ++ (if is_null elevUp then []
      else [calculateSlopeAngle (nsub (toNumber elevUp) (toNumber elev))
                                distUp])
  ++ (if is_null elevDiag then []
      else
        let distDiag :=
          Math_sqrt (nadd (nmul distRight distRight) (nmul distUp distUp)) in
        [calculateSlopeAngle (nsub (toNumber elevDiag) (toNumber elev))
                             distDiag]).

(** The body of the inner loop at [(j, i)]: [None] is [continue]. *)
Definition slopeCellAt (elevations : list (list (option R)))
    (lngs lats : list R) (j i : nat) : option SlopeCell :=
  let elev := elevationAt elevations j i in
  if is_null elev then None
  else
    let maxSlope := maxSlopeOf (directionalSlopes elevations lngs lats j i) in
    Some {| lng := ndivc (nadd (coordAt lngs i) (coordAt lngs (i + 1))) 2;
            lat := ndivc (nadd (coordAt lats j) (coordAt lats (j + 1))) 2;
            slope := maxSlope;
            elevation := elev |}.

Definition pushed (c : option SlopeCell) : list SlopeCell :=
  match c with
  | Some cell => [cell]
  | None => []
  end.

(** [elevations.length] and [elevations[0]?.length || 0]. *)
Definition rowsOf (elevations : list (list (option R))) : nat :=
  length elevations.

Definition colsOf (elevations : list (list (option R))) : nat :=
  match elevations with
  | [] => O
  | row0 :: _ => length row0
  end.

(** [calculateSlopeGrid(elevations, lngs, lats)]. *)
Definition calculateSlopeGrid (elevations : list (list (option R)))
    (lngs lats : list R) : list SlopeCell :=
  let rows := rowsOf elevations in
  let cols := colsOf elevations in
  flat_map
    (fun j =>
       flat_map (fun i => pushed (slopeCellAt elevations lngs lats j i))
                (seq 0 (cols - 1)))
    (seq 0 (rows - 1)).

(** The three neighbours of a grid position, as the slope calculator is
    described: the sample to the right, the one above and the diagonal
    one, each with its ground distance and its slope. *)
Inductive direction : Type :=
| ToRight
| ToUp
| ToDiagonal.

Definition neighbour (elevations : list (list (option R))) (j i : nat)
    (d : direction) : sample :=
  match d with
  | ToRight => elevationAt elevations j (i + 1)
  | ToUp => elevationAt elevations (j + 1) i
  | ToDiagonal => elevationAt elevations (j + 1) (i + 1)
  end.

Definition distanceToward (lngs lats : list R) (j i : nat) (d : direction)
  : num :=
  let distRight :=
    haversineDistance (coordAt lats j) (coordAt lngs i)
                      (coordAt lats j) (coordAt lngs (i + 1)) in
  let distUp :=
    haversineDistance (coordAt lats j) (coordAt lngs i)
                      (coordAt lats (j + 1)) (coordAt lngs i) in
  match d with
  | ToRight => distRight
  | ToUp => distUp
  | ToDiagonal =>
      Math_sqrt (nadd (nmul distRight distRight) (nmul distUp distUp))
  end.

Definition slopeToward (elevations : list (list (option R)))
    (lngs lats : list R) (j i : nat) (d : direction) : num :=
  calculateSlopeAngle
    (nsub (toNumber (neighbour elevations j i d))
          (toNumber (elevationAt elevations j i)))
    (distanceToward lngs lats j i d).

(** The directions whose neighbour is not [null]. *)
Definition usableDirections (elevations : list (list (option R)))
    (j i : nat) : list direction :=
  filter (fun d => negb (is_null (neighbour elevations j i d)))
         [ToRight; ToUp; ToDiagonal].

(** A matrix in the proper sense: every row as long as the first. *)
Definition rectangular (elevations : list (list (option R))) : Prop :=
  Forall (fun row => length row = colsOf elevations) elevations.

(** A colour of the ramp: the keyword, or the four numbers the template
    [rgba(r, g, b, a)] is filled with. *)
Inductive SlopeColor : Type :=
| Transparent
| Rgba (r g b a : num).

(** [getSlopeColor(slopeDegrees, minSlope)]. *)
Definition getSlopeColor (slopeDegrees : num) (minSlope : R) : SlopeColor :=
  if nlt slopeDegrees (Num minSlope) then Transparent
  else
    let normalized :=
      Math_min2 (Num 1)
        (Math_max2 (Num 0) (ndivc (nsub slopeDegrees (Num minSlope)) 40)) in
    if nlt normalized (Num (33 / 100)) then
      let t := ndivc normalized (33 / 100) in
      let r := Num 255 in
      let g := Math_round (nsub (Num 255) (nmul t (Num 100))) in
      let b := Num 0 in
      Rgba r g b (nadd (Num (3 / 10)) (nmul normalized (Num (4 / 10))))
    else if nlt normalized (Num (66 / 100)) then
      let t := ndivc (nsub normalized (Num (33 / 100))) (33 / 100) in
      let r := Num 255 in
      let g := Math_round (nsub (Num 155) (nmul t (Num 100))) in
      let b := Num 0 in
      Rgba r g b (nadd (Num (5 / 10)) (nmul normalized (Num (3 / 10))))
    else
      let t := ndivc (nsub normalized (Num (66 / 100))) (34 / 100) in
      let r := Math_round (nsub (Num 255) (nmul t (Num 55))) in
      let g := Math_round (nsub (Num 55) (nmul t (Num 55))) in
      let b := Num 0 in
      Rgba r g b (nadd (Num (7 / 10)) (nmul normalized (Num (2 / 10)))).

(** The opacity of a colour; the keyword stands for none at all. *)
Definition alpha (c : SlopeColor) : num :=
  match c with
  | Transparent => Num 0
  | Rgba _ _ _ a => a
  end.

(** The string the function returns; [show] prints a number the way a
    template literal does. *)
Definition SlopeColor_toString (show : num -> string) (c : SlopeColor)
  : string :=
  match c with
  | Transparent => "transparent"
  | Rgba r g b a =>
      ("rgba(" ++ show r ++ ", " ++ show g ++ ", " ++ show b ++ ", "
         ++ show a ++ ")")%string
  end.

Record Feature : Type := mkFeature {
  coordinates : list (num * num);
  prop_slope : num;
  prop_elevation : sample;
  prop_color : SlopeColor
}.

Record FeatureCollection : Type := mkFeatureCollection {
  features : list Feature
}.

(** One iteration of the loop of [createSlopeGeoJSON]. *)
Definition featureOf (cellSize minSlope : R) (cell : SlopeCell)
  : list Feature :=
  if nlt (slope cell) (Num minSlope) then []
  else
    let halfSize := Num (cellSize / 2) in
    let coords :=
      [ (nsub (lng cell) halfSize, nsub (lat cell) halfSize);
        (nadd (lng cell) halfSize, nsub (lat cell) halfSize);
        (nadd (lng cell) halfSize, nadd (lat cell) halfSize);
        (nsub (lng cell) halfSize, nadd (lat cell) halfSize);
        (nsub (lng cell) halfSize, nsub (lat cell) halfSize) ] in
    [ {| coordinates := coords;
         prop_slope := slope cell;
         prop_elevation := elevation cell;
         prop_color := getSlopeColor (slope cell) minSlope |} ].

(** [createSlopeGeoJSON(cells, cellSize, minSlope)]. *)
Definition createSlopeGeoJSON (cells : list SlopeCell) (cellSize minSlope : R)
  : FeatureCollection :=
  {| features := flat_map (featureOf cellSize minSlope) cells |}.

(** Sample data: a matrix with one known sample and three [null]
    neighbours, the two-by-two hill of the end-to-end scenario, and grid
    lines one degree apart. *)
Definition lonely : list (list (option R)) :=
  [[Some 5; None]; [None; None]].

Definition hill : list (list (option R)) :=
  [[Some 0; Some 0]; [Some 0; Some 100]].

(** The hill with one sample raised beyond any terrain, to [2^100]. *)
Definition wall : list (list (option R)) :=
  [[Some 0; Some 1267650600228229401496703205376]; [Some 0; Some 0]].

Definition oneDegree : list R := [0; 1].

Definition steepCell : SlopeCell :=
  {| lng := Num 0; lat := Num 0; slope := Num 100; elevation := Elevation 0 |}.

Definition lonelyCell : SlopeCell :=
  {| lng := ndivc (nadd (Num 0) (Num 1)) 2;
     lat := ndivc (nadd (Num 0) (Num 1)) 2;
     slope := Num 0;
     elevation := Elevation 5 |}.
End SlopeUtils.

(* ------------------------------------------------------------------ *)
(** ** app/api/cog/[...path]/route.ts: the [GET] handler *)

Module CogProxy.
Import JsString.
Open Scope string_scope.
Open Scope Z_scope.

(** A [Headers] object: names are kept in lower case, one entry a name. *)
Definition Headers : Type := list (string * string).

Definition lower_ascii (c : ascii) : ascii :=
  let n := nat_of_ascii c in
  if ((65 <=? n) && (n <=? 90))%nat then ascii_of_nat (n + 32) else c.

Fixpoint lower (s : string) : string :=
  match s with
  | EmptyString => EmptyString
  | String c rest => String (lower_ascii c) (lower rest)
  end.

Fixpoint Headers_get (name : string) (hs : Headers) : option string :=
  match hs with
  | [] => None
  | (k, v) :: rest =>
      if String.eqb k (lower name) then Some v else Headers_get name rest
  end.

Fixpoint Headers_set (name value : string) (hs : Headers) : Headers :=
  match hs with
  | [] => [(lower name, value)]
  | (k, v) :: rest =>
      if String.eqb k (lower name) then (k, value) :: rest
      else (k, v) :: Headers_set name value rest
  end.

Inductive Body : Type :=
| NoBody
| Bytes (content : string)
| JsonObject (fields : list (string * string)).

Record Response : Type := mkResponse {
  status : Z;
  headers : Headers;
  body : Body
}.

(** The response [fetch] resolves to, seen through what the handler reads:
    [status], [headers.get(name)] and [body] ([None] is a null body). *)
Record Upstream : Type := mkUpstream {
  up_status : Z;
  up_header : string -> option string;
  up_body : option string
}.

Inductive FetchResult : Type :=
| Resolved (response : Upstream)
| Rejected.

(** The inbound request: the value of its [Range] header, if any. *)
Record Request : Type := mkRequest {
  range : option string
}.

(** A string in a condition: [null] and the empty string are false. *)
Definition truthy (v : option string) : option string :=
  match v with
  | Some EmptyString => None
  | other => other
  end.

Definition ok (response : Upstream) : bool :=
  (200 <=? up_status response) && (up_status response <=? 299).

(** The statuses that admit no body. *)
Definition null_body_status (s : Z) : bool :=
  existsb (Z.eqb s) [101; 103; 204; 205; 304].

(** Building a response: a status outside 200..599 is refused, and so is
    a body together with a status that admits none.  [None] is the
    exception thrown. *)
Definition newResponse (b : Body) (s : Z) (hs : Headers) : option Response :=
  if negb ((200 <=? s) && (s <=? 599)) then None
  else
    match b with
    | NoBody => Some {| status := s; headers := hs; body := b |}
    | _ =>
        if null_body_status s then None
        else Some {| status := s; headers := hs; body := b |}
    end.

(** The statuses with which a response may carry a body. *)
Definition admits_body (s : Z) : bool :=
  (200 <=? s) && (s <=? 599) && negb (null_body_status s).

(** [NextResponse.json(fields, { status })]. *)
Definition NextResponse_json (fields : list (string * string)) (s : Z)
  : option Response :=
  newResponse (JsonObject fields) s [("content-type", "application/json")].

(** What the [catch] block returns:
    [NextResponse.json({ error: message }, { status: 500 })]. *)
Definition failure (message : string) : Response :=
  {| status := 500;
     headers := [("content-type", "application/json")];
     body := JsonObject [("error", message)] |}.

Definition bodyOf (b : option string) : Body :=
  match b with
  | Some content => Bytes content
  | None => NoBody
  end.

Definition forward (name : string) (from : Upstream) (hs : Headers) : Headers :=
  match truthy (up_header from (lower name)) with
  | Some v => Headers_set name v hs
  | None => hs
  end.

(** [s3Url]: the route segments joined and put under the bucket. *)
Definition s3UrlOf (path : list string) : string :=
  let pathStr := join "/" path in
  "https://copernicus-dem-30m.s3.amazonaws.com/" ++ pathStr.

(** The headers of the upstream request: the inbound [Range], if any. *)
Definition rangeHeaders (request : Request) : Headers :=
  match truthy (range request) with
  | Some rangeHeader => [("Range", rangeHeader)]
  | None => []
  end.

(** [responseHeaders]: the CORS headers, then the upstream headers that
    are forwarded. *)
Definition responseHeaders (response : Upstream) : Headers :=
  forward "Accept-Ranges" response
    (forward "Content-Range" response
       (forward "Content-Length" response
          (forward "Content-Type" response
             (Headers_set "Access-Control-Expose-Headers"
                "Content-Range, Content-Length, Accept-Ranges"
                (Headers_set "Access-Control-Allow-Headers" "Range"
                   (Headers_set "Access-Control-Allow-Methods"
                      "GET, HEAD, OPTIONS"
                      (Headers_set "Access-Control-Allow-Origin" "*"
                         []))))))).

(** The body of the [try] block; [None] when something in it throws. *)
Definition GET_try (fetch : string -> Headers -> FetchResult)
    (request : Request) (s3Url : string) : option Response :=
  let headers := rangeHeaders request in
  match fetch s3Url headers with
  | Rejected => None
  | Resolved response =>
      if negb (ok response) && negb (up_status response =? 206) then
        NextResponse_json
          [("error", "S3 error: " ++ Number_toString (up_status response))]
          (up_status response)
      else
        newResponse (bodyOf (up_body response)) (up_status response)
                    (responseHeaders response)
  end.

(** [GET(request, { params })] with [path] the resolved route segments. *)
Definition GET (fetch : string -> Headers -> FetchResult)
    (request : Request) (path : list string) : Response :=
  match GET_try fetch request (s3UrlOf path) with
  | Some response => response
  | None => failure "Failed to fetch COG file"
  end.

(** The four CORS headers of the route. *)
Definition has_cors (hs : Headers) : Prop :=
  Headers_get "Access-Control-Allow-Origin" hs = Some "*"
  /\ Headers_get "Access-Control-Allow-Methods" hs = Some "GET, HEAD, OPTIONS"
  /\ Headers_get "Access-Control-Allow-Headers" hs = Some "Range"
  /\ Headers_get "Access-Control-Expose-Headers" hs
     = Some "Content-Range, Content-Length, Accept-Ranges".

(** Sample traffic: a range request for one tile, an upstream that has no
    such object, one that serves the requested bytes, one that answers
    201, and a network failure. *)
Definition tilePath : list string :=
  ["Copernicus_DSM_COG_10_N46_00_E010_00_DEM";
   "Copernicus_DSM_COG_10_N46_00_E010_00_DEM.tif"].

Definition rangeRequest : Request := {| range := Some "bytes=0-99" |}.

Definition upstreamWith (s : Z) (content : option string) : Upstream :=
  {| up_status := s;
     up_header := fun name =>
       if String.eqb name "content-type" then Some "image/tiff" else None;
     up_body := content |}.

Definition fetchStatus (s : Z) (content : option string)
  : string -> Headers -> FetchResult :=
  fun _ _ => Resolved (upstreamWith s content).

Definition fetchFails : string -> Headers -> FetchResult :=
  fun _ _ => Rejected.
End CogProxy.

(* ------------------------------------------------------------------ *)
(** ** lib/cog-utils.ts: the tiles of a bounding box *)

Module CogTiles.
Import JsString CogUtils.
Open Scope Z_scope.

(** [Math.ceil] on an exact number. *)
Definition Math_ceil (x : Q) : Z := Qceiling x.

Record Bounds : Type := mkBounds {
  north : Q;
  south : Q;
  east : Q;
  west : Q
}.

Record CopernicusTile : Type := mkTile {
  lat : Z;
  lon : Z;
  url : string
}.

(** The values of the counter of [for (let k = first; k < limit; k++)].
    The counter is a double: [k++] reaches the next whole number as long as
    the values stay within [2^53] in magnitude, which is the range this
    list stands for. *)
Definition countingFrom (first limit : Z) : list Z :=
  map (fun k => first + Z.of_nat k) (seq 0 (Z.to_nat (limit - first))).

(** A box whose whole-degree edges lie within [2^53] in magnitude, so that
    both counters take every whole value on their way. *)
Definition safeBox (bounds : Bounds) : Prop :=
  - 2 ^ 53 <= Math_floor (south bounds)
  /\ Math_ceil (north bounds) <= 2 ^ 53
  /\ - 2 ^ 53 <= Math_floor (west bounds)
  /\ Math_ceil (east bounds) <= 2 ^ 53.

(** [getTilesForBounds(bounds)]. *)
Definition getTilesForBounds (bounds : Bounds) : list CopernicusTile :=
  flat_map
    (fun lat =>
       map (fun lon =>
              {| lat := lat;
                 lon := lon;
                 url := getCopernicusTileUrl (inject_Z lat) (inject_Z lon) |})
           (countingFrom (Math_floor (west bounds)) (Math_ceil (east bounds))))
    (countingFrom (Math_floor (south bounds)) (Math_ceil (north bounds))).

(** Sample boxes: one around the Alps sample location, and one that runs
    across the antimeridian from 170 east to 170 west. *)
Definition alpsBox : Bounds :=
  {| north := 472 # 10; south := 465 # 10; east := 112 # 10; west := 105 # 10 |}.

Definition antimeridianBox : Bounds :=
  {| north := 1; south := 0; east := -170; west := 170 |}.
End CogTiles.

(* ------------------------------------------------------------------ *)
(** ** lib/slope-utils.ts: sampling the terrain *)

Module SlopeSampling.
Import JsNum SlopeUtils.
Open Scope R_scope.

(** What the sampler reads of a [LngLatBounds]. *)
Record LngLatBounds : Type := mkLngLatBounds {
  getWest : R;
  getEast : R;
  getSouth : R;
  getNorth : R
}.

(** [(hi - lo) / gridSize].  With [gridSize] zero the quotient is an
    infinity or [NaN], which [None] stands for. *)
Definition stepOf (lo hi : R) (gridSize : Z) : option R :=
  if (gridSize =? 0)%Z then None else Some ((hi - lo) / IZR gridSize).

(** [lo + i * step], as a sum and a product of reals.  Without a finite
    step the only index the loops reach is 0, and 0 times an infinity or
    [NaN] is [NaN]. *)
Definition gridLine (lo : R) (step : option R) (i : nat) : num :=
  match step with
  | Some s => Num (lo + INR i * s)
  | None => NaN
  end.

(** The values of the counter of [for (let i = 0; i <= gridSize; i++)]. *)
Definition indicesUpTo (gridSize : Z) : list nat :=
  seq 0 (Z.to_nat (gridSize + 1)).

Record SampledGrid : Type := mkSampledGrid {
  elevations : list (list (option R));
  lngs : list num;
  lats : list num
}.

(** [sampleElevationGrid(map, bounds, gridSize)] for a whole [gridSize];
    [queryTerrainElevation lng lat] is [map.queryTerrainElevation({ lng, lat })],
    [None] being [null]. *)
Definition sampleElevationGrid
    (queryTerrainElevation : num -> num -> option R)
    (bounds : LngLatBounds) (gridSize : Z) : SampledGrid :=
  let west := getWest bounds in
  let east := getEast bounds in
  let south := getSouth bounds in
  let north := getNorth bounds in
  let lngStep := stepOf west east gridSize in
  let latStep := stepOf south north gridSize in
  let lngs := map (gridLine west lngStep) (indicesUpTo gridSize) in
  let lats := map (gridLine south latStep) (indicesUpTo gridSize) in
  let elevations :=
    map (fun j =>
           map (fun i =>
                  let lng := nth i lngs NaN in
                  let lat := nth j lats NaN in
                  queryTerrainElevation lng lat)
               (indicesUpTo gridSize))
        (indicesUpTo gridSize) in
  {| elevations := elevations; lngs := lngs; lats := lats |}.



(** Sample data: a matrix whose second row is too short, a terrain that
    is 100 metres high north of the equator and at sea level south of it,
    and a box of one degree around the origin. *)
Definition ragged : list (list (option R)) :=
  [[Some 5; Some 6]; [Some 7]].



Definition poisonedCell : SlopeCell :=
  {| lng := Num 0; lat := Num 0; slope := NaN; elevation := Elevation 5 |}.

End SlopeSampling.

(* ------------------------------------------------------------------ *)
(** ** app/api/cog/[...path]/route.ts: the [HEAD] and [OPTIONS] handlers *)

Module CogProxyHead.
Import JsString CogProxy.
Open Scope string_scope.
Open Scope Z_scope.

(** [responseHeaders] of [HEAD]: three CORS headers, then the upstream
    headers that are forwarded. *)
Definition headResponseHeaders (response : Upstream) : Headers :=
  forward "Accept-Ranges" response
    (forward "Content-Length" response
       (forward "Content-Type" response
          (Headers_set "Access-Control-Expose-Headers"
             "Content-Range, Content-Length, Accept-Ranges"
             (Headers_set "Access-Control-Allow-Methods" "GET, HEAD, OPTIONS"
                (Headers_set "Access-Control-Allow-Origin" "*" []))))).

(** The body of the [try] block of [HEAD]; [fetchHead url] is
    [fetch(url, { method: 'HEAD' })]. *)
Definition HEAD_try (fetchHead : string -> FetchResult) (s3Url : string)
  : option Response :=
  match fetchHead s3Url with
  | Rejected => None
  | Resolved response =>
      newResponse NoBody (up_status response) (headResponseHeaders response)
  end.

(** [HEAD(request, { params })]; the request itself is not read. *)
Definition HEAD (fetchHead : string -> FetchResult) (path : list string)
  : Response :=
  match HEAD_try fetchHead (s3UrlOf path) with
  | Some response => response
  | None => failure "Failed"
  end.

(** [OPTIONS()]. *)
Definition OPTIONS : Response :=
  {| status := 204;
     headers :=
       Headers_set "Access-Control-Expose-Headers"
         "Content-Range, Content-Length, Accept-Ranges"
         (Headers_set "Access-Control-Allow-Headers" "Range"
            (Headers_set "Access-Control-Allow-Methods" "GET, HEAD, OPTIONS"
               (Headers_set "Access-Control-Allow-Origin" "*" [])));
     body := NoBody |}.

(** The names of the headers a [GET] answer can carry. *)
Definition answerHeaderNames : list string :=
  ["access-control-allow-origin"; "access-control-allow-methods";
   "access-control-allow-headers"; "access-control-expose-headers";
   "content-type"; "content-length"; "content-range"; "accept-ranges"].

(** Sample traffic for [HEAD]. *)
Definition headStatus (s : Z) : string -> FetchResult :=
  fun _ => Resolved (upstreamWith s None).
End CogProxyHead.

(* ------------------------------------------------------------------ *)
(** ** lib/cliff-detector.ts: the cliff mask *)

Module CliffMask.
Import JsNum CliffDetector.
Open Scope R_scope.

Record SlopeParams : Type := mkSlopeParams {
  heightDiff : R;
  horizontalDist : R
}.

(** [a >= b]; false as soon as one side is [NaN]. *)
Definition nge (a b : num) : bool :=
  match a, b with
  | Num x, Num y => if Rle_dec y x then true else false
  | _, _ => false
  end.

(** [elevationData[y][x]] when it passes the test
    [elev === null || isNaN(elev)]: [None] for [null], for [NaN] and for
    an index outside the arrays ([isNaN(undefined)] is true). *)
Definition elevationOf (elevationData : list (list (option num))) (y x : nat)
  : option R :=
  match nth_error elevationData y with
  | Some row =>
      match nth_error row x with
      | Some (Some (Num v)) => Some v
      | _ => None
      end
  | None => None
  end.

(** [Math.ceil(params.horizontalDist / resolution)].  Over the (positive)
    zero the quotient is an infinity or [NaN], and so is its ceiling. *)
Inductive reach : Type :=
| Whole (p : Z)
| PlusInfinity
| MinusInfinity
| Unordered.

Definition pixelDistanceOf (horizontalDist resolution : R) : reach :=
  if Req_dec_T resolution 0 then
    if Rlt_dec 0 horizontalDist then PlusInfinity
    else if Rlt_dec horizontalDist 0 then MinusInfinity
    else Unordered
  else Whole (Zceil (horizontalDist / resolution)).

(** The values of the counter of
    [for (let d = -pixelDistance; d <= pixelDistance; d++)].  The counter
    is a double: [d++] reaches the next whole number as long as the values
    stay within [2^53] in magnitude, which is the range this list stands
    for. *)
Definition offsets (p : Z) : list Z :=
  map (fun k => (- p + Z.of_nat k)%Z) (seq 0 (Z.to_nat (2 * p + 1))).

(** A search the counters can carry out: the resolution is not zero and
    the pixel distance is at most [2^52 = 4503599627370496]. *)
Definition scannable (params : SlopeParams) (resolution : R) : Prop :=
  resolution <> 0
  /\ horizontalDist params / resolution <= 4503599627370496.

(** One pass through the body of the innermost loop: [true] when it sets
    the mask. *)
Definition probe (elevationData : list (list (option num)))
    (resolution : R) (params : SlopeParams) (height width : nat)
    (y x : nat) (currentElev : R) (dy dx : Z) : bool :=
  if ((dx =? 0) && (dy =? 0))%Z then false
  else
    let nx := (Z.of_nat x + dx)%Z in
    let ny := (Z.of_nat y + dy)%Z in
    if ((nx <? 0) || (nx >=? Z.of_nat width)
        || (ny <? 0) || (ny >=? Z.of_nat height))%Z then false
    else
      match elevationOf elevationData (Z.to_nat ny) (Z.to_nat nx) with
      | None => false
      | Some neighborElev =>
          let actualDistance := sqrt (IZR (dx * dx + dy * dy)) * resolution in
          if Rlt_dec (horizontalDist params) actualDistance then false
          else
            let elevDiff := Rabs (currentElev - neighborElev) in
            let slopeAngle := calculateSlopeAngle elevDiff actualDistance in
            let minAngle :=
              calculateSlopeAngle (heightDiff params) (horizontalDist params) in
            nge slopeAngle minAngle
      end.

(** The value [cliffMask[y][x]] ends with: the two inner loops stop at the
    first pass that sets it. *)
Definition flagged (elevationData : list (list (option num)))
    (resolution : R) (params : SlopeParams) (height width : nat) (p : Z)
    (y x : nat) : bool :=
  match elevationOf elevationData y x with
  | None => false
  | Some currentElev =>
      existsb
        (fun dy =>
           existsb (probe elevationData resolution params height width
                          y x currentElev dy)
                   (offsets p))
        (offsets p)
  end.

(** [elevationData.length] and [elevationData[0]?.length || 0]. *)
Definition heightOf {A : Type} (rows : list (list A)) : nat := length rows.

Definition widthOf {A : Type} (rows : list (list A)) : nat :=
  match rows with
  | [] => O
  | row0 :: _ => length row0
  end.

(** The mask as it is created: [height] rows of [width] times [false]. *)
Definition emptyMask (height width : nat) : list (list bool) :=
  repeat (repeat false width) height.

(** Whether the outer loops meet an elevation that passes the test. *)
Definition meetsElevation (elevationData : list (list (option num)))
    (height width : nat) : bool :=
  existsb
    (fun y =>
       existsb (fun x =>
                  match elevationOf elevationData y x with
                  | Some _ => true
                  | None => false
                  end)
               (seq 0 width))
    (seq 0 height).

(** [detectCliffs(elevationData, resolution, params)].  [None] stands for a
    call that never returns: with an infinite [pixelDistance] the inner
    loops start at minus infinity and stay there. *)
Definition detectCliffs (elevationData : list (list (option num)))
    (resolution : R) (params : SlopeParams) : option (list (list bool)) :=
  let height := heightOf elevationData in
  let width := widthOf elevationData in
  match pixelDistanceOf (horizontalDist params) resolution with
  | Whole p =>
      Some (map (fun y =>
                   map (flagged elevationData resolution params height width
                                p y)
                       (seq 0 width))
                (seq 0 height))
  | PlusInfinity =>
      if meetsElevation elevationData height width then None
      else Some (emptyMask height width)
  | MinusInfinity => Some (emptyMask height width)
  | Unordered => Some (emptyMask height width)
  end.

(** [cliffMask[y][x]] in a condition: a missing entry counts as false. *)
Definition maskAt (cliffMask : list (list bool)) (y x : nat) : bool :=
  nth x (nth y cliffMask []) false.



(** Sample data: a step of ten metres between two columns, sampled every
    ten metres, with the default parameters of three metres over twenty. *)
Definition step : list (list (option num)) :=
  [[Some (Num 0); Some (Num 10)]; [Some (Num 0); Some (Num 10)]].

Definition defaultParams : SlopeParams :=
  {| heightDiff := 3; horizontalDist := 20 |}.


End CliffMask.

(* ------------------------------------------------------------------ *)
(** ** Facts about the tile names *)

Module CogUtilsFacts.
Import JsString CogUtils.
Open Scope string_scope.

Lemma substring_whole (s : string) : substring 0 (String.length s) s = s.
Proof. induction s as [|c s IH]; simpl; [reflexivity | now rewrite IH]. Qed.

Lemma length_repeat_zero (n : nat) :
  String.length (repeat_string "0" n) = n.
Proof. induction n as [|n IH]; simpl; [reflexivity | now rewrite IH]. Qed.

(** Padding with the one-character fill ["0"] puts the missing zeros in
    front. *)
Lemma padStart_zero (s : string) (width : nat) :
  padStart s width "0"
  = repeat_string "0" (width - String.length s) ++ s.
Proof.
  unfold padStart. cbn [String.length Nat.eqb orb].
  rewrite Bool.orb_false_r.
  destruct (Nat.leb_spec width (String.length s)) as [Hle | Hlt].
  - replace (width - String.length s)%nat with O by lia. reflexivity.
  - set (m := (width - String.length s)%nat).
    rewrite <- (length_repeat_zero m) at 1.
    now rewrite substring_whole.
Qed.

Lemma padStart_zero_padded (width : nat) (n : Z) :
  padStart (decimal n) width "0" = zero_padded width n.
Proof. unfold zero_padded. apply padStart_zero. Qed.

(** Below [2^53] a whole number is printed digit by digit. *)
Lemma Number_toString_safe (n : Z) :
  (0 <= n < 2 ^ 53)%Z -> Number_toString n = decimal n.
Proof.
  intros [Hlo Hhi]. unfold Number_toString, unsignedToString.
  destruct (Z.ltb_spec n 0) as [Hneg | _]; [lia|].
  destruct (Z.ltb_spec n (2 ^ 53)) as [_ | Hbig]; [reflexivity | lia].
Qed.

Lemma tileName_canonical (lat lon : Q) :
  (Z.abs (Math_floor lat) < 2 ^ 53)%Z ->
  (Z.abs (Math_floor lon) < 2 ^ 53)%Z ->
  fst (getCopernicusTileUrl_parts lat lon)
  = canonicalTileName (Math_floor lat) (Math_floor lon).
Proof.
  intros Hlat Hlon.
  unfold getCopernicusTileUrl_parts, canonicalTileName, Math_abs.
  cbn [fst].
  rewrite !Number_toString_safe by (split; [apply Z.abs_nonneg | assumption]).
  rewrite !padStart_zero_padded, !Z.geb_leb. reflexivity.
Qed.

Lemma floor_of_floor (x : Q) : Math_floor (inject_Z (Math_floor x)) = Math_floor x.
Proof. unfold Math_floor. apply Qfloor_Z. Qed.

Example tile_alps :
  getCopernicusTileUrl (465 # 10) (105 # 10)
  = "https://copernicus-dem-30m.s3.amazonaws.com/Copernicus_DSM_COG_10_N46_00_E010_00_DEM/Copernicus_DSM_COG_10_N46_00_E010_00_DEM.tif".
Proof. vm_compute. reflexivity. Qed.

Example tile_three_digit_latitude :
  fst (getCopernicusTileUrl_parts (1234 # 10) 0)
  = "Copernicus_DSM_COG_10_N123_00_E000_00_DEM".
Proof. vm_compute. reflexivity. Qed.

(** How large whole numbers are printed: exact digits up to [2^53],
    rounded digits followed by zeros up to 21 digits, exponent notation
    beyond. *)
Example Number_toString_regimes :
  Number_toString (2 ^ 53 - 1) = "9007199254740991"
  /\ Number_toString (2 ^ 64) = "18446744073709552000"
  /\ Number_toString (2 ^ 70) = "1.1805916207174113e+21"
  /\ Number_toString (10 ^ 23) = "1e+23".
Proof. vm_compute. repeat split. Qed.

(** C6.  As long as the floors of both coordinates stay below [2^53] in
    magnitude, the tile name that [getCopernicusTileUrl] builds is the
    canonical identifier of the floored coordinates (letter N or E for a
    floor that is zero or more, S or W below zero; magnitude in decimal
    digits, padded with zeros to two digits for the latitude and three for
    the longitude), the returned URL is that name used as directory and as
    file name under the bucket, the function gives the same URL on the
    floored coordinates, and the two sample points (51.2, 7.9) and
    (-5.0, -12.3) give the tile names [..._N51_00_E007_00_DEM] and
    [..._S05_00_W013_00_DEM]. *)
Theorem getCopernicusTileUrl_canonical (lat lon : Q) :
  (Z.abs (Math_floor lat) < 2 ^ 53)%Z ->
  (Z.abs (Math_floor lon) < 2 ^ 53)%Z ->
  let name := canonicalTileName (Math_floor lat) (Math_floor lon) in
  getCopernicusTileUrl_parts lat lon
  = (name,
     "https://copernicus-dem-30m.s3.amazonaws.com/" ++ name ++ "/" ++ name
       ++ ".tif")
  /\ getCopernicusTileUrl lat lon
     = getCopernicusTileUrl (inject_Z (Math_floor lat))
                            (inject_Z (Math_floor lon))
  /\ fst (getCopernicusTileUrl_parts (512 # 10) (79 # 10))
     = "Copernicus_DSM_COG_10_N51_00_E007_00_DEM"
  /\ fst (getCopernicusTileUrl_parts (-5) (-123 # 10))
     = "Copernicus_DSM_COG_10_S05_00_W013_00_DEM".
Proof.
  intros Hlat Hlon. cbv zeta. split; [|split; [|split]].
  - pose proof (tileName_canonical lat lon Hlat Hlon) as Hname.
    unfold getCopernicusTileUrl_parts in *. cbn [fst] in Hname.
    now rewrite Hname.
  - unfold getCopernicusTileUrl, getCopernicusTileUrl_parts.
    now rewrite !floor_of_floor.
  - vm_compute. reflexivity.
  - vm_compute. reflexivity.
Qed.

(** The theorem at the point (46.5, 10.5) of the Alps. *)
Lemma getCopernicusTileUrl_canonical_witness :
  (Z.abs (Math_floor (465 # 10)) < 2 ^ 53)%Z
  /\ (Z.abs (Math_floor (105 # 10)) < 2 ^ 53)%Z
  /\ getCopernicusTileUrl_parts (465 # 10) (105 # 10)
     = (canonicalTileName 46 10,
        "https://copernicus-dem-30m.s3.amazonaws.com/"
          ++ canonicalTileName 46 10 ++ "/" ++ canonicalTileName 46 10
          ++ ".tif")
  /\ canonicalTileName 46 10 = "Copernicus_DSM_COG_10_N46_00_E010_00_DEM".
Proof.
  assert (Hlat : (Z.abs (Math_floor (465 # 10)) < 2 ^ 53)%Z)
    by (vm_compute; reflexivity).
  assert (Hlon : (Z.abs (Math_floor (105 # 10)) < 2 ^ 53)%Z)
    by (vm_compute; reflexivity).
  split; [exact Hlat|]. split; [exact Hlon|].
  split.
  - exact (proj1 (getCopernicusTileUrl_canonical (465 # 10) (105 # 10)
                    Hlat Hlon)).
  - vm_compute. reflexivity.
Defined.

(** C6, the claim as worded, for every coordinate: it fails for large ones.
    At latitude [10^21] the floor is the latitude itself and is printed as
    [1e+21], so the tile name is [..._N1e+21_00_...] and not the zero-padded
    decimal magnitude; at latitude [2^60] the digits printed are those of
    1152921504606847000, not of the floor 1152921504606846976. *)
Lemma getCopernicusTileUrl_beyond_safe_integers :
  fst (getCopernicusTileUrl_parts (inject_Z (10 ^ 21)) 0)
  = "Copernicus_DSM_COG_10_N1e+21_00_E000_00_DEM"
  /\ canonicalTileName (Math_floor (inject_Z (10 ^ 21))) (Math_floor 0)
     = "Copernicus_DSM_COG_10_N1000000000000000000000_00_E000_00_DEM"
  /\ fst (getCopernicusTileUrl_parts (inject_Z (2 ^ 60)) 0)
     = "Copernicus_DSM_COG_10_N1152921504606847000_00_E000_00_DEM"
  /\ canonicalTileName (Math_floor (inject_Z (2 ^ 60))) (Math_floor 0)
     = "Copernicus_DSM_COG_10_N1152921504606846976_00_E000_00_DEM"
  /\ fst (getCopernicusTileUrl_parts (inject_Z (10 ^ 21)) 0)
     <> canonicalTileName (Math_floor (inject_Z (10 ^ 21))) (Math_floor 0).
Proof.
  split; [vm_compute; reflexivity|].
  split; [vm_compute; reflexivity|].
  split; [vm_compute; reflexivity|].
  split; [vm_compute; reflexivity|].
  vm_compute. discriminate.
Qed.

(** C10.  For the same coordinates the two copies of the tile-name
    computation give the same string: one name [t] is both the directory
    and file name in the URL of [getCopernicusTileUrl] and the directory and
    file name in the proxy path of [getCogProtocolUrl], whatever the page
    origin is. *)
Theorem tile_name_computations_agree (origin : string) (lat lon : Q) :
  fst (getCopernicusTileUrl_parts lat lon)
  = fst (getCogProtocolUrl_parts origin lat lon)
  /\ exists t : string,
       getCopernicusTileUrl lat lon
       = "https://copernicus-dem-30m.s3.amazonaws.com/" ++ t ++ "/" ++ t
           ++ ".tif"
       /\ getCogProtocolUrl origin lat lon
          = "cog://" ++ origin ++ ("/api/cog/" ++ t ++ "/" ++ t ++ ".tif")
              ++ "#dem".
Proof.
  split; [reflexivity|].
  exists (fst (getCopernicusTileUrl_parts lat lon)). split; reflexivity.
Qed.
End CogUtilsFacts.

(* ------------------------------------------------------------------ *)
(** ** Facts about the slope angle *)

Module SlopeAngleFacts.
Import JsNum SlopeUtils.
Open Scope R_scope.

Lemma degrees_factor_pos : 0 < 180 / PI.
Proof.
  apply Rdiv_lt_0_compat; [lra | exact PI_RGT_0].
Qed.

Lemma quarter_turn_degrees : PI / 2 * (180 / PI) = 90.
Proof.
  pose proof PI_RGT_0 as Hpi. field. lra.
Qed.

Lemma atan_nonneg (x : R) : 0 <= x -> 0 <= atan x.
Proof.
  intros [Hpos | Hzero].
  - left. rewrite <- atan_0. now apply atan_increasing.
  - subst x. rewrite atan_0. lra.
Qed.

(** Below [2^66] in magnitude [Math.atan] is the arc tangent. *)
Lemma arcTangent_small (x : R) :
  - 73786976294838206464 < x < 73786976294838206464 ->
  arcTangent x = atan x.
Proof.
  intros [Hlo Hhi]. unfold arcTangent.
  destruct (Rle_dec 73786976294838206464 x) as [Hbig | _]; [lra|].
  destruct (Rle_dec x (- 73786976294838206464)) as [Hneg | _]; [lra|].
  reflexivity.
Qed.

Lemma arcTangent_0 : arcTangent 0 = 0.
Proof. rewrite arcTangent_small by lra. apply atan_0. Qed.

Lemma arcTangent_saturated (x : R) :
  73786976294838206464 <= x -> arcTangent x = PI / 2.
Proof.
  intros Hbig. unfold arcTangent.
  destruct (Rle_dec 73786976294838206464 x) as [_ | Hn]; [reflexivity | lra].
Qed.

(** On arguments that are not negative [Math.atan] stays between 0 and
    the quarter turn, which it reaches. *)
Lemma arcTangent_nonneg (x : R) : 0 <= x -> 0 <= arcTangent x <= PI / 2.
Proof.
  intros Hx. pose proof PI_RGT_0 as Hpi. unfold arcTangent.
  destruct (Rle_dec 73786976294838206464 x) as [Hbig | Hsmall]; [lra|].
  destruct (Rle_dec x (- 73786976294838206464)) as [Hneg | _]; [lra|].
  pose proof (atan_nonneg x Hx) as Hlo.
  destruct (atan_bound x) as [_ Hhi]. lra.
Qed.

Lemma arcTangent_bound (x : R) : - (PI / 2) <= arcTangent x <= PI / 2.
Proof.
  pose proof PI_RGT_0 as Hpi. unfold arcTangent.
  destruct (Rle_dec 73786976294838206464 x) as [Hbig | _]; [lra|].
  destruct (Rle_dec x (- 73786976294838206464)) as [Hneg | _]; [lra|].
  destruct (atan_bound x). lra.
Qed.

Lemma arcTangent_monotone (a b : R) : a <= b -> arcTangent a <= arcTangent b.
Proof.
  intros Hab. pose proof (arcTangent_bound a) as Ha.
  pose proof (arcTangent_bound b) as Hb. unfold arcTangent in *.
  destruct (Rle_dec 73786976294838206464 b) as [Hbig | Hsmall]; [lra|].
  destruct (Rle_dec 73786976294838206464 a) as [Habs | _]; [lra|].
  destruct (Rle_dec a (- 73786976294838206464)) as [Hlow | Hmid]; [lra|].
  destruct (Rle_dec b (- 73786976294838206464)) as [Habs | _]; [lra|].
  destruct Hab as [Hlt | ->]; [left; now apply atan_increasing | lra].
Qed.


Lemma arcTangent_pos (x : R) : 0 < x -> 0 < arcTangent x.
Proof.
  intros Hx. pose proof PI_RGT_0 as Hpi. unfold arcTangent.
  destruct (Rle_dec 73786976294838206464 x) as [Hbig | Hsmall]; [lra|].
  destruct (Rle_dec x (- 73786976294838206464)) as [Hneg | _]; [lra|].
  rewrite <- atan_0. now apply atan_increasing.
Qed.

(** A guarded call on reals unfolds to the formula. *)
Lemma calculateSlopeAngle_formula (e d : R) :
  d <> 0 ->
  calculateSlopeAngle (Num e) (Num d)
  = Num (arcTangent (Rabs e / d) * (180 / PI)).
Proof.
  intros Hd. unfold calculateSlopeAngle.
  destruct (Req_dec_T d 0) as [Heq | _]; [contradiction | reflexivity].
Qed.

(** No rise, no slope, whatever the distance. *)
Lemma calculateSlopeAngle_flat (x d : R) :
  calculateSlopeAngle (Num (x - x)) (Num d) = Num 0.
Proof.
  unfold calculateSlopeAngle.
  destruct (Req_dec_T d 0) as [_ | Hd]; [reflexivity|].
  cbn [Math_abs Math_atan ndivc nmul lift1 lift2]. f_equal.
  replace (x - x) with 0 by ring.
  rewrite Rabs_R0. unfold Rdiv at 1. rewrite Rmult_0_l, arcTangent_0. ring.
Qed.

Lemma calculateSlopeAngle_zero_distance (e : num) :
  calculateSlopeAngle e (Num 0) = Num 0.
Proof.
  unfold calculateSlopeAngle.
  destruct (Req_dec_T 0 0) as [_ | Hne]; [reflexivity | now elim Hne].
Qed.

(** Over a positive distance the angle lies between 0 and 90. *)
Lemma calculateSlopeAngle_range (e d : R) :
  0 < d ->
  exists s, calculateSlopeAngle (Num e) (Num d) = Num s /\ 0 <= s <= 90.
Proof.
  intros Hd. rewrite calculateSlopeAngle_formula by lra.
  eexists; split; [reflexivity|].
  assert (Hq : 0 <= Rabs e / d).
  { apply Rmult_le_pos; [apply Rabs_pos | left; now apply Rinv_0_lt_compat]. }
  destruct (arcTangent_nonneg _ Hq) as [Hlo Hhi].
  pose proof degrees_factor_pos as Hk.
  split.
  - now apply Rmult_le_pos; [|left].
  - rewrite <- quarter_turn_degrees. apply Rmult_le_compat_r; [lra | exact Hhi].
Qed.

(** A rise of at least [2^66] times the distance makes the angle 90. *)
Lemma calculateSlopeAngle_vertical (e d : R) :
  0 < d ->
  73786976294838206464 * d <= Rabs e ->
  calculateSlopeAngle (Num e) (Num d) = Num 90.
Proof.
  intros Hd Hbig. rewrite calculateSlopeAngle_formula by lra.
  rewrite arcTangent_saturated.
  - now rewrite quarter_turn_degrees.
  - apply Rmult_le_reg_r with d; [exact Hd|].
    unfold Rdiv. rewrite Rmult_assoc, Rinv_l by lra. lra.
Qed.

Example slope_of_unit_rise : calculateSlopeAngle (Num 1) (Num 1) = Num 45.
Proof.
  rewrite calculateSlopeAngle_formula by lra.
  rewrite Rabs_R1. replace (1 / 1) with 1 by lra.
  rewrite arcTangent_small by lra. rewrite atan_1.
  f_equal. pose proof PI_RGT_0. field. lra.
Qed.

(** C3, as the code has it.  [calculateSlopeAngle(0, d)] is 0 for every
    distance [d], and [calculateSlopeAngle(h, 0)] is 0, not 90, for every
    height difference [h]: the function returns 0 as soon as the distance
    is zero. *)
Theorem calculateSlopeAngle_edges (h d : R) :
  calculateSlopeAngle (Num 0) (Num d) = Num 0
  /\ calculateSlopeAngle (Num h) (Num 0) = Num 0.
Proof.
  split; [|apply calculateSlopeAngle_zero_distance].
  destruct (Req_dec_T d 0) as [-> | Hd].
  - apply calculateSlopeAngle_zero_distance.
  - rewrite calculateSlopeAngle_formula by assumption.
    rewrite Rabs_R0. unfold Rdiv. rewrite Rmult_0_l, arcTangent_0.
    f_equal. ring.
Qed.

(** C3 fails as stated: with height difference 1 and distance 0 the
    result is 0, which is not 90. *)
Lemma calculateSlopeAngle_zero_distance_not_90 :
  calculateSlopeAngle (Num 1) (Num 0) = Num 0
  /\ calculateSlopeAngle (Num 1) (Num 0) <> Num 90.
Proof.
  rewrite calculateSlopeAngle_zero_distance. split; [reflexivity|].
  intros Habs. injection Habs as Habs. lra.
Qed.

(** The earlier helper of [cliff-detector.ts] has no guard and takes no
    absolute value: over distance zero (the positive zero) it gives 90
    for a rise and -90 for a drop. *)
Lemma legacy_calculateSlopeAngle_zero_distance (h : R) :
  (0 < h -> CliffDetector.calculateSlopeAngle h 0 = Num 90)
  /\ (h < 0 -> CliffDetector.calculateSlopeAngle h 0 = Num (- 90)).
Proof.
  unfold CliffDetector.calculateSlopeAngle.
  destruct (Req_dec_T 0 0) as [_ | Hne]; [|now elim Hne].
  split; intros Hh.
  - destruct (Rlt_dec 0 h); [|lra]. now rewrite quarter_turn_degrees.
  - destruct (Rlt_dec 0 h); [lra|]. destruct (Rlt_dec h 0); [|lra].
    f_equal.
    replace (- (PI / 2) * (180 / PI)) with (- (PI / 2 * (180 / PI))) by ring.
    rewrite quarter_turn_degrees. lra.
Qed.
End SlopeAngleFacts.

(* ------------------------------------------------------------------ *)
(** ** Facts about the slope grid *)

Module SlopeGridFacts.
Import JsNum SlopeUtils SlopeAngleFacts.
Open Scope R_scope.

Section Grid.
Variable elevations : list (list (option R)).
Variables lngs lats : list R.

Lemma in_pushed (c : SlopeCell) (o : option SlopeCell) :
  In c (pushed o) <-> o = Some c.
Proof.
  destruct o as [c' |]; simpl; split.
  - intros [-> | []]. reflexivity.
  - intros [= ->]. now left.
  - intros [].
  - discriminate.
Qed.

(** The cells returned are those the loop body produces at the
    positions the two loops visit. *)
Lemma in_calculateSlopeGrid (c : SlopeCell) :
  In c (calculateSlopeGrid elevations lngs lats)
  <-> exists j i : nat,
        (j < rowsOf elevations - 1)%nat
        /\ (i < colsOf elevations - 1)%nat
        /\ slopeCellAt elevations lngs lats j i = Some c.
Proof.
  unfold calculateSlopeGrid. rewrite in_flat_map. split.
  - intros (j & Hj & Hin). apply in_flat_map in Hin as (i & Hi & Hin).
    apply in_seq in Hj. apply in_seq in Hi. apply in_pushed in Hin.
    exists j, i. repeat split; [lia | lia | assumption].
  - intros (j & i & Hj & Hi & Hcell).
    exists j. split; [apply in_seq; lia|].
    apply in_flat_map. exists i. split; [apply in_seq; lia|].
    now apply in_pushed.
Qed.

Lemma slopeCellAt_some (j i : nat) (c : SlopeCell) :
  slopeCellAt elevations lngs lats j i = Some c ->
  elevationAt elevations j i <> Null
  /\ elevation c = elevationAt elevations j i
  /\ slope c = maxSlopeOf (directionalSlopes elevations lngs lats j i).
Proof.
  unfold slopeCellAt.
  destruct (elevationAt elevations j i) eqn:Helev; cbn [is_null];
    intros [= <-]; cbn [slope elevation]; repeat split; discriminate.
Qed.

Lemma slopeCellAt_defined (j i : nat) :
  elevationAt elevations j i <> Null ->
  exists c, slopeCellAt elevations lngs lats j i = Some c.
Proof.
  intros Hbase. unfold slopeCellAt.
  destruct (elevationAt elevations j i); cbn [is_null];
    [eexists; reflexivity | contradiction | eexists; reflexivity].
Qed.

(** The [slopes] array holds the slope toward each neighbour that is
    not [null], and nothing else. *)
Lemma directionalSlopes_usable (j i : nat) :
  directionalSlopes elevations lngs lats j i
  = map (slopeToward elevations lngs lats j i)
        (usableDirections elevations j i).
Proof.
  unfold directionalSlopes, usableDirections, slopeToward. cbn [filter neighbour].
  destruct (is_null (elevationAt elevations j (i + 1)));
    destruct (is_null (elevationAt elevations (j + 1) i));
    destruct (is_null (elevationAt elevations (j + 1) (i + 1)));
    reflexivity.
Qed.

Lemma in_usableDirections (j i : nat) (d : direction) :
  In d (usableDirections elevations j i)
  <-> neighbour elevations j i d <> Null.
Proof.
  unfold usableDirections. rewrite filter_In. split.
  - intros [_ Hd] Hnull. rewrite Hnull in Hd. discriminate.
  - intros Hd. split.
    + destruct d; simpl; auto.
    + destruct (neighbour elevations j i d); try reflexivity.
      now elim Hd.
Qed.
End Grid.

(** [Math.max] over numbers: the result is a member and an upper bound. *)
Lemma fold_max_numbers (rest : list num) :
  forall x : R,
    Forall (fun v => v <> NaN) rest ->
    exists m : R,
      fold_left Math_max2 rest (Num x) = Num m
      /\ (m = x \/ In (Num m) rest)
      /\ x <= m
      /\ forall v : R, In (Num v) rest -> v <= m.
Proof.
  induction rest as [|y rest IH]; intros x Hreal.
  - exists x. simpl. repeat split; [now left | lra | intros v []].
  - inversion Hreal as [|? ? Hy Hrest]; subst.
    destruct y as [y |]; [|now elim Hy].
    cbn [fold_left Math_max2 lift2].
    destruct (IH (Rmax x y) Hrest) as (m & Hfold & Hmem & Hge & Hub).
    exists m. split; [exact Hfold|].
    pose proof (Rmax_l x y) as Hl. pose proof (Rmax_r x y) as Hr.
    repeat split.
    + destruct Hmem as [-> | Hin].
      * unfold Rmax. destruct (Rle_dec x y); [right; now left | now left].
      * right. now right.
    + lra.
    + intros v [[= <-] | Hin]; [lra | now apply Hub].
Qed.

Lemma maxSlopeOf_numbers (slopes : list num) :
  slopes <> [] ->
  Forall (fun v => v <> NaN) slopes ->
  exists m : R,
    maxSlopeOf slopes = Num m
    /\ In (Num m) slopes
    /\ forall v : R, In (Num v) slopes -> v <= m.
Proof.
  destruct slopes as [|s rest]; [congruence|]. intros _ Hreal.
  inversion Hreal as [|? ? Hs Hrest]; subst.
  destruct s as [x |]; [|now elim Hs].
  destruct (fold_max_numbers rest x Hrest) as (m & Hfold & Hmem & Hge & Hub).
  exists m. cbn [maxSlopeOf]. split; [exact Hfold|]. split.
  - destruct Hmem as [-> | Hin]; [now left | now right].
  - intros v [[= <-] | Hin]; [exact Hge | now apply Hub].
Qed.

(** A bound shared by all entries is a bound of the reported slope. *)
Lemma maxSlopeOf_range (slopes : list num) :
  Forall (fun v => exists s, v = Num s /\ 0 <= s <= 90) slopes ->
  exists s, maxSlopeOf slopes = Num s /\ 0 <= s <= 90.
Proof.
  intros Hall. destruct slopes as [|v rest].
  - exists 0. split; [reflexivity | lra].
  - assert (Hreal : Forall (fun v => v <> NaN) (v :: rest)).
    { eapply Forall_impl; [|exact Hall].
      intros a (s & -> & _). discriminate. }
    destruct (maxSlopeOf_numbers (v :: rest)) as (m & Hmax & Hin & _);
      [discriminate | exact Hreal |].
    exists m. split; [exact Hmax|].
    rewrite Forall_forall in Hall.
    destruct (Hall _ Hin) as (s & [= <-] & Hs). exact Hs.
Qed.

Lemma lonely_grid :
  slopeCellAt lonely oneDegree oneDegree 0 0 = Some lonelyCell
  /\ calculateSlopeGrid lonely oneDegree oneDegree = [lonelyCell].
Proof. split; reflexivity. Qed.

(** C2, as the code has it.  At a position the loops visit, a cell is
    emitted exactly when the base sample [elevations[j][i]] is not [null];
    the three neighbours play no part in that. *)
Theorem cell_emitted_iff_base_sample
    (elevations : list (list (option R))) (lngs lats : list R) (j i : nat) :
  (j < rowsOf elevations - 1)%nat ->
  (i < colsOf elevations - 1)%nat ->
  (exists c, slopeCellAt elevations lngs lats j i = Some c
             /\ In c (calculateSlopeGrid elevations lngs lats))
  <-> elevationAt elevations j i <> Null.
Proof.
  intros Hj Hi. split.
  - intros (c & Hcell & _). now apply slopeCellAt_some in Hcell.
  - intros Hbase.
    destruct (slopeCellAt_defined elevations lngs lats j i Hbase) as (c & Hcell).
    exists c. split; [exact Hcell|].
    apply in_calculateSlopeGrid. now exists j, i.
Qed.

Lemma cell_emitted_iff_base_sample_witness :
  exists c, slopeCellAt lonely oneDegree oneDegree 0 0 = Some c
            /\ In c (calculateSlopeGrid lonely oneDegree oneDegree).
Proof.
  apply (cell_emitted_iff_base_sample lonely oneDegree oneDegree 0 0).
  - simpl. lia.
  - simpl. lia.
  - discriminate.
Defined.

(** C2 fails as stated: the three neighbours of position (0, 0) are all
    [null], and the grid still holds a cell for it. *)
Lemma cell_emitted_without_neighbours :
  neighbour lonely 0 0 ToRight = Null
  /\ neighbour lonely 0 0 ToUp = Null
  /\ neighbour lonely 0 0 ToDiagonal = Null
  /\ slopeCellAt lonely oneDegree oneDegree 0 0 = Some lonelyCell
  /\ calculateSlopeGrid lonely oneDegree oneDegree = [lonelyCell].
Proof.
  repeat split.
Qed.

(** C5.  Every cell of the grid comes from a visited position with a base
    sample that is not [null]; its slope is [Math.max] of the slopes
    toward those of the right, up and diagonal neighbours that are not
    [null] (at most three values, a [null] neighbour adding none); the
    slope toward a neighbour of elevation [h] from a base of elevation [b]
    is [calculateSlopeAngle(h - b, distance)], the distance being the
    great-circle length of the right or up edge and, for the diagonal, the
    square root of the sum of their squares; when these slopes are numbers
    the reported slope is one of them and no smaller than any; and with
    all three neighbours [null] the slope is 0. *)
Theorem cell_slope_is_max
    (elevations : list (list (option R))) (lngs lats : list R)
    (c : SlopeCell) :
  In c (calculateSlopeGrid elevations lngs lats) ->
  exists j i : nat,
    (j < rowsOf elevations - 1)%nat
    /\ (i < colsOf elevations - 1)%nat
    /\ elevationAt elevations j i <> Null
    /\ slopeCellAt elevations lngs lats j i = Some c
    /\ let usable := usableDirections elevations j i in
       let slopes := map (slopeToward elevations lngs lats j i) usable in
       let distRight :=
         haversineDistance (coordAt lats j) (coordAt lngs i)
                           (coordAt lats j) (coordAt lngs (i + 1)) in
       let distUp :=
         haversineDistance (coordAt lats j) (coordAt lngs i)
                           (coordAt lats (j + 1)) (coordAt lngs i) in
       (forall d, In d usable <-> neighbour elevations j i d <> Null)
       /\ (length slopes <= 3)%nat
       /\ slope c = maxSlopeOf slopes
       /\ (forall (d : direction) (h b : R),
             neighbour elevations j i d = Elevation h ->
             elevationAt elevations j i = Elevation b ->
             slopeToward elevations lngs lats j i d
             = calculateSlopeAngle
                 (Num (h - b))
                 match d with
                 | ToRight => distRight
                 | ToUp => distUp
                 | ToDiagonal =>
                     Math_sqrt (nadd (nmul distRight distRight)
                                     (nmul distUp distUp))
                 end)
       /\ (slopes <> [] ->
           Forall (fun v => v <> NaN) slopes ->
           exists m : R,
             slope c = Num m
             /\ In (Num m) slopes
             /\ forall v : R, In (Num v) slopes -> v <= m)
       /\ (neighbour elevations j i ToRight = Null ->
           neighbour elevations j i ToUp = Null ->
           neighbour elevations j i ToDiagonal = Null ->
           slope c = Num 0).
Proof.
  intros Hin. apply in_calculateSlopeGrid in Hin as (j & i & Hj & Hi & Hcell).
  exists j, i.
  destruct (slopeCellAt_some _ _ _ _ _ _ Hcell) as (Hbase & _ & Hslope).
  rewrite directionalSlopes_usable in Hslope.
  repeat (split; [assumption|]). cbv zeta.
  split; [apply in_usableDirections|].
  split.
  { rewrite length_map. unfold usableDirections.
    etransitivity; [apply filter_length_le | simpl; lia]. }
  split; [exact Hslope|].
  split.
  { intros d h b Hh Hb. unfold slopeToward. rewrite Hh, Hb.
    cbn [toNumber nsub lift2]. destruct d; reflexivity. }
  split.
  - intros Hne Hreal. rewrite Hslope. now apply maxSlopeOf_numbers.
  - intros Hr Hu Hd. rewrite Hslope. unfold usableDirections.
    cbn [filter]. rewrite Hr, Hu, Hd. reflexivity.
Qed.

(** In a rectangular matrix every index inside the row and column counts
    finds a sample or [null]. *)
Lemma elevationAt_in_matrix (elevations : list (list (option R))) (j i : nat) :
  rectangular elevations ->
  (j < rowsOf elevations)%nat ->
  (i < colsOf elevations)%nat ->
  elevationAt elevations j i <> Undefined.
Proof.
  intros Hrect Hj Hi. unfold elevationAt.
  destruct (nth_error elevations j) as [row |] eqn:Hrow.
  - assert (Hlen : length row = colsOf elevations).
    { unfold rectangular in Hrect. rewrite Forall_forall in Hrect.
      apply Hrect. eapply nth_error_In. exact Hrow. }
    destruct (nth_error row i) as [[x |] |] eqn:Hcol; try discriminate.
    apply nth_error_None in Hcol. lia.
  - apply nth_error_None in Hrow. unfold rowsOf in Hj. lia.
Qed.

Lemma neighbour_in_matrix (elevations : list (list (option R)))
    (j i : nat) (d : direction) :
  rectangular elevations ->
  (j < rowsOf elevations - 1)%nat ->
  (i < colsOf elevations - 1)%nat ->
  neighbour elevations j i d <> Undefined.
Proof.
  intros Hrect Hj Hi.
  destruct d; cbn [neighbour]; apply elevationAt_in_matrix;
    solve [assumption | lia].
Qed.

(** The diagonal distance of two positive edge lengths is positive. *)
Lemma diagonal_distance_pos (dr du : R) :
  0 < dr -> 0 < du ->
  exists dd,
    Math_sqrt (nadd (nmul (Num dr) (Num dr)) (nmul (Num du) (Num du)))
    = Num dd
    /\ 0 < dd.
Proof.
  intros Hr Hu. cbn [nadd nmul lift2 Math_sqrt].
  assert (Hsum : 0 < dr * dr + du * du) by nra.
  destruct (Rlt_dec (dr * dr + du * du) 0) as [Hneg | _]; [lra|].
  eexists. split; [reflexivity | now apply sqrt_lt_R0].
Qed.

(** C9, as the code has it.  For a rectangular matrix of numbers and
    [null]s whose right and up edge lengths are positive numbers at every
    visited position, every cell of the grid has a slope that is a number
    from 0 to 90, both ends included: never negative, never above 90. *)
Theorem cell_slope_in_range
    (elevations : list (list (option R))) (lngs lats : list R) :
  rectangular elevations ->
  (forall j i : nat,
      (j < rowsOf elevations - 1)%nat ->
      (i < colsOf elevations - 1)%nat ->
      exists dr du : R,
        distanceToward lngs lats j i ToRight = Num dr /\ 0 < dr
        /\ distanceToward lngs lats j i ToUp = Num du /\ 0 < du) ->
  forall c : SlopeCell,
    In c (calculateSlopeGrid elevations lngs lats) ->
    exists s : R, slope c = Num s /\ 0 <= s <= 90.
Proof.
  intros Hrect Hdist c Hin.
  apply in_calculateSlopeGrid in Hin as (j & i & Hj & Hi & Hcell).
  destruct (slopeCellAt_some _ _ _ _ _ _ Hcell) as (Hbase & _ & ->).
  rewrite directionalSlopes_usable.
  apply maxSlopeOf_range. apply Forall_map, Forall_forall.
  intros d Hd. apply in_usableDirections in Hd.
  pose proof (neighbour_in_matrix elevations j i d Hrect Hj Hi) as Hdef.
  assert (Hself : elevationAt elevations j i <> Undefined)
    by (apply elevationAt_in_matrix; solve [assumption | lia]).
  destruct (Hdist j i Hj Hi) as (dr & du & Hr & Hrpos & Hu & Hupos).
  assert (Hpos : exists dist, distanceToward lngs lats j i d = Num dist
                              /\ 0 < dist).
  { destruct d.
    - now exists dr.
    - now exists du.
    - unfold distanceToward in *. cbn iota in *. rewrite Hr, Hu.
      now apply diagonal_distance_pos. }
  destruct Hpos as (dist & Hdval & Hdpos).
  unfold slopeToward. rewrite Hdval.
  destruct (neighbour elevations j i d) as [y | |]; try contradiction.
  destruct (elevationAt elevations j i) as [x | |]; try contradiction.
  cbn [toNumber nsub lift2].
  now apply calculateSlopeAngle_range.
Qed.

(** The great-circle formula gives a positive length, shorter than half
    the way around the sphere, whenever its constant [a] lies strictly
    between 0 and 1. *)
Lemma haversineDistance_short (lat1 lng1 lat2 lng2 : num) (a : R) :
  haversine_a lat1 lng1 lat2 lng2 = Num a ->
  0 < a < 1 ->
  exists d,
    haversineDistance lat1 lng1 lat2 lng2 = Num d /\ 0 < d < 6371000 * PI.
Proof.
  intros Ha [Hlo Hhi]. unfold haversineDistance. rewrite Ha.
  cbn [Math_sqrt nsub lift2].
  destruct (Rlt_dec a 0) as [Hneg | _]; [lra|].
  destruct (Rlt_dec (1 - a) 0) as [Hneg | _]; [lra|].
  cbn [Math_atan2 nmul lift2]. eexists. split; [reflexivity|].
  assert (Hy : 0 < sqrt a) by (apply sqrt_lt_R0; lra).
  assert (Hx : 0 < sqrt (1 - a)) by (apply sqrt_lt_R0; lra).
  unfold atan2. destruct (Rlt_dec 0 (sqrt (1 - a))) as [_ | Hn]; [|lra].
  assert (Hq : 0 < sqrt a / sqrt (1 - a)) by now apply Rdiv_lt_0_compat.
  pose proof (atan_increasing _ _ Hq) as Hatan. rewrite atan_0 in Hatan.
  destruct (atan_bound (sqrt a / sqrt (1 - a))) as [_ Hup].
  lra.
Qed.

Lemma haversineDistance_pos (lat1 lng1 lat2 lng2 : num) (a : R) :
  haversine_a lat1 lng1 lat2 lng2 = Num a ->
  0 < a < 1 ->
  exists d, haversineDistance lat1 lng1 lat2 lng2 = Num d /\ 0 < d.
Proof.
  intros Ha Hrange.
  destruct (haversineDistance_short _ _ _ _ _ Ha Hrange) as (d & Hd & Hpos & _).
  now exists d.
Qed.

Lemma half_degree_sine : 0 < sin (PI / 360) * sin (PI / 360) < 1.
Proof.
  pose proof PI_RGT_0 as Hpi.
  assert (Hs : 0 < sin (PI / 360)) by (apply sin_gt_0; lra).
  assert (Hc : 0 < cos (PI / 360)) by (apply cos_gt_0; lra).
  pose proof (sin2_cos2 (PI / 360)) as Hsum. unfold Rsqr in Hsum.
  split; nra.
Qed.

Lemma one_degree_east :
  haversine_a (Num 0) (Num 0) (Num 0) (Num 1)
  = Num (sin (PI / 360) * sin (PI / 360)).
Proof.
  unfold haversine_a.
  cbn [nadd nsub nmul ndivc lift1 lift2 Math_sin Math_cos]. f_equal.
  replace ((0 - 0) * (PI / 180) / 2) with 0 by lra.
  replace (0 * (PI / 180)) with 0 by lra.
  replace ((1 - 0) * (PI / 180) / 2) with (PI / 360) by lra.
  rewrite sin_0, cos_0. ring.
Qed.

Lemma one_degree_north :
  haversine_a (Num 0) (Num 0) (Num 1) (Num 0)
  = Num (sin (PI / 360) * sin (PI / 360)).
Proof.
  unfold haversine_a.
  cbn [nadd nsub nmul ndivc lift1 lift2 Math_sin Math_cos]. f_equal.
  replace ((0 - 0) * (PI / 180) / 2) with 0 by lra.
  replace ((1 - 0) * (PI / 180) / 2) with (PI / 360) by lra.
  rewrite sin_0. ring.
Qed.

(** The two edges of the one-degree grid at the equator. *)
Lemma oneDegree_edges :
  exists dr du : R,
    distanceToward oneDegree oneDegree 0 0 ToRight = Num dr
    /\ 0 < dr < 6371000 * PI
    /\ distanceToward oneDegree oneDegree 0 0 ToUp = Num du
    /\ 0 < du < 6371000 * PI.
Proof.
  destruct (haversineDistance_short _ _ _ _ _ one_degree_east half_degree_sine)
    as (dr & Hr & Hrpos).
  destruct (haversineDistance_short _ _ _ _ _ one_degree_north half_degree_sine)
    as (du & Hu & Hupos).
  exists dr, du. repeat split; solve [assumption | lra].
Qed.

Lemma oneDegree_distances (j i : nat) :
  (j < 1)%nat -> (i < 1)%nat ->
  exists dr du : R,
    distanceToward oneDegree oneDegree j i ToRight = Num dr /\ 0 < dr
    /\ distanceToward oneDegree oneDegree j i ToUp = Num du /\ 0 < du.
Proof.
  intros Hj Hi.
  assert (j = O) by lia. assert (i = O) by lia. subst.
  destruct oneDegree_edges as (dr & du & Hr & Hrpos & Hu & Hupos).
  exists dr, du. repeat split; solve [assumption | lra].
Qed.

Lemma hill_rectangular : rectangular hill.
Proof. repeat constructor. Qed.

Lemma wall_rectangular : rectangular wall.
Proof. repeat constructor. Qed.

(** The one cell of a two-by-two matrix over the one-degree grid. *)
Lemma single_cell (elevations : list (list (option R))) (x : R) :
  rowsOf elevations = 2%nat ->
  colsOf elevations = 2%nat ->
  elevationAt elevations 0 0 = Elevation x ->
  exists c : SlopeCell,
    In c (calculateSlopeGrid elevations oneDegree oneDegree)
    /\ slope c
       = maxSlopeOf
           (map (slopeToward elevations oneDegree oneDegree 0 0)
                (usableDirections elevations 0 0)).
Proof.
  intros Hrows Hcols Hbase.
  destruct (slopeCellAt_defined elevations oneDegree oneDegree 0 0)
    as (c & Hcell); [rewrite Hbase; discriminate|].
  exists c. split.
  - apply in_calculateSlopeGrid. exists O, O.
    rewrite Hrows, Hcols. repeat split; solve [lia | exact Hcell].
  - destruct (slopeCellAt_some _ _ _ _ _ _ Hcell) as (_ & _ & Hslope).
    now rewrite directionalSlopes_usable in Hslope.
Qed.

Lemma cell_slope_in_range_witness :
  length (calculateSlopeGrid hill oneDegree oneDegree) = 1%nat
  /\ Forall (fun c => exists s : R, slope c = Num s /\ 0 <= s <= 90)
            (calculateSlopeGrid hill oneDegree oneDegree).
Proof.
  split; [reflexivity|].
  apply Forall_forall.
  apply (cell_slope_in_range hill oneDegree oneDegree).
  - exact hill_rectangular.
  - intros j i Hj Hi. apply oneDegree_distances; simpl in Hj, Hi; lia.
Defined.

(** C9 fails as stated: the slope reaches 90.  Over grid lines one degree
    apart at the equator, whose edges are positive lengths, the matrix
    [[0, 2^100], [0, 0]] gives one cell, and its slope is exactly 90: the
    rise toward the right neighbour is more than [2^66] times the edge
    length, so [Math.atan] returns the quarter turn. *)
Lemma cell_slope_reaches_90 :
  rectangular wall
  /\ (exists dr du : R,
        distanceToward oneDegree oneDegree 0 0 ToRight = Num dr /\ 0 < dr
        /\ distanceToward oneDegree oneDegree 0 0 ToUp = Num du /\ 0 < du)
  /\ exists c : SlopeCell,
       In c (calculateSlopeGrid wall oneDegree oneDegree)
       /\ slope c = Num 90
       /\ ~ (exists s : R, slope c = Num s /\ 0 <= s < 90).
Proof.
  split; [exact wall_rectangular|].
  destruct oneDegree_edges as (dr & du & Hr & Hrpos & Hu & Hupos).
  split; [exists dr, du; repeat split; solve [assumption | lra]|].
  destruct (single_cell wall 0) as (c & Hin & Hslope);
    [reflexivity | reflexivity | reflexivity |].
  exists c. split; [exact Hin|].
  assert (H90 : slope c = Num 90).
  { rewrite Hslope.
    change (usableDirections wall 0 0) with [ToRight; ToUp; ToDiagonal].
    cbn [map]. unfold slopeToward.
    destruct (diagonal_distance_pos dr du) as (dd & Hdd & Hddpos);
      [lra | lra |].
    assert (Hdiag : distanceToward oneDegree oneDegree 0 0 ToDiagonal = Num dd).
    { unfold distanceToward in *. cbn iota in *. now rewrite Hr, Hu. }
    rewrite Hr, Hu, Hdiag.
    change (neighbour wall 0 0 ToRight)
      with (Elevation 1267650600228229401496703205376).
    change (neighbour wall 0 0 ToUp) with (Elevation 0).
    change (neighbour wall 0 0 ToDiagonal) with (Elevation 0).
    change (elevationAt wall 0 0) with (Elevation 0).
    cbn [toNumber nsub lift2].
    rewrite !calculateSlopeAngle_flat.
    rewrite calculateSlopeAngle_vertical.
    - cbn [maxSlopeOf fold_left Math_max2 lift2]. f_equal.
      unfold Rmax. repeat destruct (Rle_dec _ _); lra.
    - lra.
    - pose proof PI_4 as Hpi.
      rewrite Rabs_right by lra. nra. }
  split; [exact H90|].
  intros (s & Hs & _ & Hlt). rewrite H90 in Hs. injection Hs as <-. lra.
Qed.

(** The hill over the one-degree grid: the slopes toward the right and up
    neighbours are 0, the slope toward the raised diagonal neighbour is
    positive, and the cell reports the latter. *)
Lemma cell_slope_is_max_witness :
  exists (c : SlopeCell) (dd m : R),
    In c (calculateSlopeGrid hill oneDegree oneDegree)
    /\ distanceToward oneDegree oneDegree 0 0 ToDiagonal = Num dd
    /\ 0 < dd
    /\ map (slopeToward hill oneDegree oneDegree 0 0)
           (usableDirections hill 0 0)
       = [Num 0; Num 0; Num m]
    /\ m = arcTangent (100 / dd) * (180 / PI)
    /\ 0 < m
    /\ slope c = Num m.
Proof.
  destruct oneDegree_edges as (dr & du & Hr & Hrpos & Hu & Hupos).
  destruct (diagonal_distance_pos dr du) as (dd & Hdd & Hddpos);
    [lra | lra |].
  assert (Hdiag : distanceToward oneDegree oneDegree 0 0 ToDiagonal = Num dd).
  { unfold distanceToward in *. cbn iota in *. now rewrite Hr, Hu. }
  destruct (single_cell hill 0) as (c & Hin & _);
    [reflexivity | reflexivity | reflexivity |].
  destruct (cell_slope_is_max hill oneDegree oneDegree c Hin)
    as (j & i & Hj & Hi & _ & _ & _ & _ & _ & Hformula & Hmax & _).
  assert (j = O) by (simpl in Hj; lia).
  assert (i = O) by (simpl in Hi; lia).
  subst j i.
  set (m := arcTangent (100 / dd) * (180 / PI)).
  assert (Hm : 0 < m).
  { apply Rmult_lt_0_compat; [|exact degrees_factor_pos].
    apply arcTangent_pos. now apply Rdiv_lt_0_compat; [lra|]. }
  assert (Hslopes : map (slopeToward hill oneDegree oneDegree 0 0)
                        (usableDirections hill 0 0)
                    = [Num 0; Num 0; Num m]).
  { change (usableDirections hill 0 0) with [ToRight; ToUp; ToDiagonal].
    cbn [map].
    rewrite (Hformula ToRight 0 0), (Hformula ToUp 0 0),
      (Hformula ToDiagonal 100 0) by reflexivity.
    unfold distanceToward in Hr, Hu, Hdiag. cbn iota in Hr, Hu, Hdiag.
    rewrite Hdiag, Hr, Hu.
    rewrite !calculateSlopeAngle_flat.
    rewrite calculateSlopeAngle_formula by lra.
    replace (Rabs (100 - 0)) with 100
      by (rewrite Rabs_right; lra).
    reflexivity. }
  exists c, dd, m.
  repeat (split; [first [exact Hin | exact Hdiag | exact Hddpos
                        | exact Hslopes | reflexivity | exact Hm]|]).
  destruct Hmax as (m' & Hc & Hmem & Hub).
  - rewrite Hslopes. discriminate.
  - rewrite Hslopes. repeat constructor; discriminate.
  - rewrite Hc. f_equal. rewrite Hslopes in Hmem, Hub.
    assert (Hle : m <= m') by (apply Hub; right; right; now left).
    destruct Hmem as [[= <-] | [[= <-] | [[= <-] | []]]]; lra.
Defined.
End SlopeGridFacts.

(* ------------------------------------------------------------------ *)
(** ** Facts about the colour ramp and the feature collection *)

Module SlopeColorFacts.
Import JsNum SlopeUtils.
Open Scope R_scope.

(** Rounding a value that lies between two integers stays between them. *)
Lemma round_between (lo hi : Z) (v : R) :
  IZR lo <= v <= IZR hi ->
  (lo <= Zfloor (v + / 2) <= hi)%Z.
Proof.
  intros [Hlo Hhi]. split.
  - apply Zfloor_lub. lra.
  - destruct (Zfloor_bound (v + / 2)) as [Hfloor _].
    assert (Hlt : IZR (Zfloor (v + / 2)) < IZR (hi + 1)).
    { rewrite plus_IZR. simpl. lra. }
    apply lt_IZR in Hlt. lia.
Qed.

Lemma unit_fraction (u c : R) :
  0 < c -> 0 <= u <= c -> 0 <= u / c <= 1.
Proof.
  intros Hc [Hlo Hhi]. pose proof (Rinv_0_lt_compat c Hc) as Hinv.
  unfold Rdiv. split.
  - apply Rmult_le_pos; lra.
  - rewrite <- (Rinv_r c) by lra. apply Rmult_le_compat_r; lra.
Qed.

(** The normalised position of a slope above the threshold. *)
Lemma normalized_bounds (x m : R) :
  0 <= Rmin 1 (Rmax 0 ((x - m) / 40)) <= 1.
Proof.
  split.
  - apply Rmin_glb; [lra | apply Rmax_l].
  - apply Rmin_l.
Qed.

Lemma normalized_monotone (x y m : R) :
  x <= y ->
  Rmin 1 (Rmax 0 ((x - m) / 40)) <= Rmin 1 (Rmax 0 ((y - m) / 40)).
Proof.
  intros Hxy. apply Rle_min_compat_l. apply Rle_max_compat_l. lra.
Qed.

(** At or above the threshold the colour is one of the three segments;
    the opacity is given segment by segment. *)
Lemma getSlopeColor_above (x m : R) :
  m <= x ->
  let n := Rmin 1 (Rmax 0 ((x - m) / 40)) in
  exists (r g b : Z) (a : R),
    getSlopeColor (Num x) m
    = Rgba (Num (IZR r)) (Num (IZR g)) (Num (IZR b)) (Num a)
    /\ (0 <= r <= 255)%Z /\ (0 <= g <= 255)%Z /\ (0 <= b <= 255)%Z
    /\ ((n < 33 / 100 /\ a = 3 / 10 + n * (4 / 10))
        \/ (33 / 100 <= n < 66 / 100 /\ a = 5 / 10 + n * (3 / 10))
        \/ (66 / 100 <= n /\ a = 7 / 10 + n * (2 / 10))).
Proof.
  intros Hx n. pose proof (normalized_bounds x m) as Hn. fold n in Hn.
  unfold getSlopeColor. cbn [nlt].
  destruct (Rlt_dec x m) as [Hlt | _]; [lra|].
  cbn [Math_min2 Math_max2 lift2 ndivc lift1 nsub nmul nadd Math_round].
  fold n. unfold nlt.
  destruct (Rlt_dec n (33 / 100)) as [H1 | H1];
    [|destruct (Rlt_dec n (66 / 100)) as [H2 | H2]].
  - eexists 255%Z, _, 0%Z, _. split; [reflexivity|].
    split; [lia|]. split; [|split; [lia|left; split; [lra | reflexivity]]].
    pose proof (round_between 155 255 (255 - n / (33 / 100) * 100)) as Hg.
    assert (0 <= n / (33 / 100) <= 1).
    { apply unit_fraction; lra. }
    lapply Hg; [lia | lra].
  - eexists 255%Z, _, 0%Z, _. split; [reflexivity|].
    split; [lia|].
    split; [|split; [lia|right; left; split; [lra | reflexivity]]].
    pose proof (round_between 55 155 (155 - (n - 33 / 100) / (33 / 100) * 100))
      as Hg.
    assert (0 <= (n - 33 / 100) / (33 / 100) <= 1).
    { apply unit_fraction; lra. }
    lapply Hg; [lia | lra].
  - eexists _, _, 0%Z, _. split; [reflexivity|].
    assert (0 <= (n - 66 / 100) / (34 / 100) <= 1).
    { apply unit_fraction; lra. }
    pose proof (round_between 200 255 (255 - (n - 66 / 100) / (34 / 100) * 55))
      as Hr.
    pose proof (round_between 0 55 (55 - (n - 66 / 100) / (34 / 100) * 55))
      as Hg.
    split; [lapply Hr; [lia | lra]|].
    split; [lapply Hg; [lia | lra]|].
    split; [lia|]. right; right. split; [lra | reflexivity].
Qed.

Lemma getSlopeColor_below (x m : R) :
  x < m -> getSlopeColor (Num x) m = Transparent.
Proof.
  intros Hx. unfold getSlopeColor, nlt.
  destruct (Rlt_dec x m); [reflexivity | contradiction].
Qed.

(** C7.  Below the threshold [getSlopeColor] returns the keyword
    [transparent]; at or above it, it returns the template
    [rgba(r, g, b, a)] filled with three whole channel values between 0
    and 255 and an opacity between 0 and 1; and of two slopes at or above
    the threshold the larger one has an opacity at least as large. *)
Theorem getSlopeColor_ramp (below x y m : R) :
  below < m -> m <= x -> x <= y ->
  (getSlopeColor (Num below) m = Transparent
   /\ forall show,
        SlopeColor_toString show (getSlopeColor (Num below) m)
        = "transparent"%string)
  /\ (exists (r g b : Z) (a : R),
        getSlopeColor (Num x) m
        = Rgba (Num (IZR r)) (Num (IZR g)) (Num (IZR b)) (Num a)
        /\ (0 <= r <= 255)%Z /\ (0 <= g <= 255)%Z /\ (0 <= b <= 255)%Z
        /\ 0 <= a <= 1
        /\ forall show,
             SlopeColor_toString show (getSlopeColor (Num x) m)
             = ("rgba(" ++ show (Num (IZR r)) ++ ", " ++ show (Num (IZR g))
                  ++ ", " ++ show (Num (IZR b)) ++ ", " ++ show (Num a)
                  ++ ")")%string)
  /\ (exists ax ay : R,
        alpha (getSlopeColor (Num x) m) = Num ax
        /\ alpha (getSlopeColor (Num y) m) = Num ay
        /\ ax <= ay).
Proof.
  intros Hbelow Hx Hxy.
  pose proof (normalized_bounds x m) as Hnx.
  pose proof (normalized_bounds y m) as Hny.
  pose proof (normalized_monotone x y m Hxy) as Hmono.
  destruct (getSlopeColor_above x m Hx)
    as (r & g & b & ax & Hcx & Hr & Hg & Hb & Hax).
  destruct (getSlopeColor_above y m) as (r' & g' & b' & ay & Hcy & _ & _ & _ & Hay);
    [lra|].
  cbv zeta in Hax, Hay.
  split; [|split].
  - rewrite (getSlopeColor_below below m Hbelow). split; reflexivity.
  - exists r, g, b, ax. rewrite Hcx.
    repeat (split; [first [reflexivity | assumption | lia]|]).
    split; [|reflexivity].
    destruct Hax as [[? ->] | [[? ->] | [? ->]]]; lra.
  - exists ax, ay. rewrite Hcx, Hcy. cbn [alpha].
    repeat split.
    destruct Hax as [[? ->] | [[? ->] | [? ->]]];
      destruct Hay as [[? ->] | [[? ->] | [? ->]]]; lra.
Qed.

Lemma getSlopeColor_ramp_witness :
  getSlopeColor (Num 1) 5 = Transparent
  /\ exists ax ay : R,
       alpha (getSlopeColor (Num 10) 5) = Num ax
       /\ alpha (getSlopeColor (Num 20) 5) = Num ay
       /\ ax <= ay.
Proof.
  assert (H1 : 1 < 5) by lra.
  assert (H2 : 5 <= 10) by lra.
  assert (H3 : 10 <= 20) by lra.
  destruct (getSlopeColor_ramp 1 10 20 5 H1 H2 H3) as ((Hlow & _) & _ & Hmono).
  split; [exact Hlow | exact Hmono].
Defined.

Example color_at_threshold :
  alpha (getSlopeColor (Num 5) 5) = Num (3 / 10 + 0 * (4 / 10)).
Proof.
  destruct (getSlopeColor_above 5 5) as (r & g & b & a & -> & _ & _ & _ & Ha);
    [lra|].
  cbv zeta in Ha. cbn [alpha]. f_equal.
  replace ((5 - 5) / 40) with 0 in Ha by lra.
  rewrite Rmax_left in Ha by lra. rewrite Rmin_right in Ha by lra.
  destruct Ha as [[_ ->] | [[? _] | [? _]]]; [reflexivity | lra | lra].
Qed.

Lemma featureOf_below (cellSize minSlope s : R) (cell : SlopeCell) :
  slope cell = Num s -> s < minSlope ->
  featureOf cellSize minSlope cell = [].
Proof.
  intros Hs Hlt. unfold featureOf. rewrite Hs. unfold nlt.
  destruct (Rlt_dec s minSlope); [reflexivity | contradiction].
Qed.

(** C8, as the code has it.  With [minSlope = 100] the feature list is
    empty for every list of cells whose slopes are numbers below 100,
    whatever the cell size. *)
Theorem createSlopeGeoJSON_threshold_100
    (cells : list SlopeCell) (cellSize : R) :
  Forall (fun cell => exists s, slope cell = Num s /\ s < 100) cells ->
  features (createSlopeGeoJSON cells cellSize 100) = [].
Proof.
  unfold createSlopeGeoJSON. cbn [features].
  induction 1 as [|cell rest (s & Hs & Hlt) _ IH]; [reflexivity|].
  cbn [flat_map]. rewrite (featureOf_below cellSize 100 s cell Hs Hlt).
  exact IH.
Qed.

Lemma createSlopeGeoJSON_threshold_100_witness :
  features (createSlopeGeoJSON [lonelyCell] 1 100) = [].
Proof.
  apply (createSlopeGeoJSON_threshold_100 [lonelyCell] 1).
  constructor; [|constructor].
  exists 0. split; [reflexivity | lra].
Defined.

(** C8 fails as stated: a cell whose slope is 100 passes the filter
    [cell.slope < 100] and becomes a feature. *)
Lemma createSlopeGeoJSON_threshold_100_not_empty :
  length (features (createSlopeGeoJSON [steepCell] 1 100)) = 1%nat
  /\ features (createSlopeGeoJSON [steepCell] 1 100) <> [].
Proof.
  unfold createSlopeGeoJSON, featureOf, steepCell.
  cbn [features flat_map slope nlt].
  destruct (Rlt_dec 100 100) as [Habs | _]; [lra|].
  split; [reflexivity | discriminate].
Qed.
End SlopeColorFacts.

(* ------------------------------------------------------------------ *)
(** ** Facts about the COG proxy *)

Module CogProxyFacts.
Import JsString CogProxy.
Open Scope string_scope.
Open Scope Z_scope.

Lemma failure_is_json_500 (message : string) :
  NextResponse_json [("error", message)] 500 = Some (failure message).
Proof. reflexivity. Qed.

(** The forwarded upstream headers leave the CORS headers in place. *)
Lemma responseHeaders_cors (response : Upstream) :
  has_cors (responseHeaders response).
Proof.
  unfold responseHeaders, forward, has_cors.
  destruct (truthy (up_header response (lower "Content-Type")));
    destruct (truthy (up_header response (lower "Content-Length")));
    destruct (truthy (up_header response (lower "Content-Range")));
    destruct (truthy (up_header response (lower "Accept-Ranges")));
    repeat split.
Qed.

Lemma ok_range (response : Upstream) :
  ok response = true <-> 200 <= up_status response <= 299.
Proof.
  unfold ok. rewrite Bool.andb_true_iff, !Z.leb_le. reflexivity.
Qed.

(** The guard [!response.ok && response.status !== 206] is the test
    "status outside 200..299": 206 is itself a success status. *)
Lemma error_guard (response : Upstream) :
  negb (ok response) && negb (up_status response =? 206) = true
  <-> ~ (200 <= up_status response <= 299).
Proof.
  rewrite Bool.andb_true_iff, !Bool.negb_true_iff.
  rewrite <- Bool.not_true_iff_false, ok_range, Z.eqb_neq. lia.
Qed.

Lemma newResponse_some (b : Body) (s : Z) (hs : Headers) (r : Response) :
  newResponse b s hs = Some r ->
  r = {| status := s; headers := hs; body := b |} /\ 200 <= s <= 599.
Proof.
  unfold newResponse.
  destruct (Z.leb_spec 200 s); destruct (Z.leb_spec s 599);
    cbn [andb negb]; try discriminate.
  destruct b; [|destruct (null_body_status s)..];
    try discriminate; intros [= <-]; split; (reflexivity || lia).
Qed.

(** Every answer of [GET] is of one of three kinds. *)
Lemma GET_cases (fetch : string -> Headers -> FetchResult)
    (request : Request) (path : list string) :
  let answer := GET fetch request path in
  (exists up,
      fetch (s3UrlOf path) (rangeHeaders request) = Resolved up
      /\ 200 <= up_status up <= 299
      /\ answer = {| status := up_status up;
                     headers := responseHeaders up;
                     body := bodyOf (up_body up) |})
  \/ (exists up,
         fetch (s3UrlOf path) (rangeHeaders request) = Resolved up
         /\ ~ (200 <= up_status up <= 299)
         /\ answer
            = {| status := up_status up;
                 headers := [("content-type", "application/json")];
                 body := JsonObject
                           [("error",
                             "S3 error: " ++ Number_toString (up_status up))] |})
  \/ answer = failure "Failed to fetch COG file".
Proof.
  cbv zeta. unfold GET, GET_try.
  destruct (fetch (s3UrlOf path) (rangeHeaders request)) as [up |];
    [|now right; right].
  destruct (negb (ok up) && negb (up_status up =? 206)) eqn:Hguard.
  - apply error_guard in Hguard. unfold NextResponse_json.
    destruct (newResponse _ _ _) as [r |] eqn:Hnew; [|now right; right].
    apply newResponse_some in Hnew as [-> _].
    right; left. exists up. repeat split; assumption.
  - assert (Hok : 200 <= up_status up <= 299).
    { destruct (Z_le_dec 200 (up_status up)) as [Hlo |];
        [destruct (Z_le_dec (up_status up) 299) as [Hhi |]|].
      - lia.
      - assert (Habs : negb (ok up) && negb (up_status up =? 206) = true)
          by (apply error_guard; lia).
        congruence.
      - assert (Habs : negb (ok up) && negb (up_status up =? 206) = true)
          by (apply error_guard; lia).
        congruence. }
    destruct (newResponse _ _ _) as [r |] eqn:Hnew; [|now right; right].
    apply newResponse_some in Hnew as [-> _].
    left. exists up. repeat split; solve [assumption | lia].
Qed.

Lemma newResponse_admitted (b : Body) (s : Z) (hs : Headers) :
  b = NoBody /\ 200 <= s <= 599 \/ admits_body s = true ->
  newResponse b s hs = Some {| status := s; headers := hs; body := b |}.
Proof.
  unfold newResponse, admits_body.
  intros [[-> Hs] | Hadm].
  - destruct (Z.leb_spec 200 s); destruct (Z.leb_spec s 599);
      solve [reflexivity | lia].
  - apply Bool.andb_true_iff in Hadm as [Hrange Hbody].
    rewrite Hrange. apply Bool.negb_true_iff in Hbody. rewrite Hbody.
    now destruct b.
Qed.

(** C1, as the code has it.  Whenever [GET] answers with a success status
    (200 to 299, the upstream response passed through), the response
    carries the four CORS headers: [Access-Control-Allow-Origin: *],
    methods [GET, HEAD, OPTIONS], allowed header [Range] and exposed
    headers [Content-Range, Content-Length, Accept-Ranges]. *)
Theorem GET_success_has_cors (fetch : string -> Headers -> FetchResult)
    (request : Request) (path : list string) :
  200 <= status (GET fetch request path) <= 299 ->
  has_cors (headers (GET fetch request path)).
Proof.
  intros Hstatus.
  destruct (GET_cases fetch request path)
    as [(up & _ & _ & Hanswer) | [(up & _ & Herr & Hanswer) | Hanswer]];
    rewrite Hanswer in *; cbn [status headers failure] in *.
  - apply responseHeaders_cors.
  - contradiction.
  - lia.
Qed.

Lemma GET_success_has_cors_witness :
  has_cors
    (headers (GET (fetchStatus 206 (Some "ranged bytes")) rangeRequest tilePath)).
Proof.
  apply (GET_success_has_cors (fetchStatus 206 (Some "ranged bytes"))
                              rangeRequest tilePath).
  change (200 <= 206 <= 299). lia.
Defined.

(** C1 fails as stated: when the upstream answers 404 the proxy relays
    404 with the JSON error body and no CORS header at all, and when the
    fetch throws the 500 response has none either. *)
Lemma GET_error_without_cors :
  (let answer := GET (fetchStatus 404 (Some "NoSuchKey")) rangeRequest tilePath in
   status answer = 404
   /\ body answer = JsonObject [("error", "S3 error: 404")]
   /\ Headers_get "Access-Control-Allow-Origin" (headers answer) = None
   /\ ~ has_cors (headers answer))
  /\ (let answer := GET fetchFails rangeRequest tilePath in
      status answer = 500
      /\ body answer = JsonObject [("error", "Failed to fetch COG file")]
      /\ Headers_get "Access-Control-Allow-Origin" (headers answer) = None
      /\ ~ has_cors (headers answer)).
Proof.
  cbv zeta. split.
  - repeat split. intros [Habs _]. vm_compute in Habs. discriminate.
  - repeat split. intros [Habs _]. vm_compute in Habs. discriminate.
Qed.

(** C4, as the code has it.  With an upstream status outside 200..299 at
    which a response may carry a body, [GET] answers with that status and
    the JSON body [{ error: "S3 error: <status>" }]; with any upstream
    status from 200 to 299 (200 and 206 among them) it passes status and
    body through, a bodiless upstream response included. *)
Theorem GET_status_relay (fetch : string -> Headers -> FetchResult)
    (request : Request) (path : list string) (up : Upstream) :
  fetch (s3UrlOf path) (rangeHeaders request) = Resolved up ->
  let answer := GET fetch request path in
  (~ (200 <= up_status up <= 299) ->
   admits_body (up_status up) = true ->
   status answer = up_status up
   /\ body answer
      = JsonObject
          [("error", "S3 error: " ++ Number_toString (up_status up))])
  /\ (200 <= up_status up <= 299 ->
      up_body up = None \/ admits_body (up_status up) = true ->
      status answer = up_status up
      /\ body answer = bodyOf (up_body up)).
Proof.
  intros Hfetch. cbv zeta. unfold GET, GET_try. rewrite Hfetch. split.
  - intros Herr Hadm. apply error_guard in Herr. rewrite Herr.
    unfold NextResponse_json. rewrite newResponse_admitted by now right.
    split; reflexivity.
  - intros Hok Hbody.
    destruct (negb (ok up) && negb (up_status up =? 206)) eqn:Hguard.
    + apply error_guard in Hguard. contradiction.
    + rewrite newResponse_admitted; [split; reflexivity|].
      destruct Hbody as [-> | Hadm]; [left; split; [reflexivity | lia]|].
      now right.
Qed.

Lemma GET_status_relay_witness :
  (status (GET (fetchStatus 404 (Some "NoSuchKey")) rangeRequest tilePath) = 404
   /\ body (GET (fetchStatus 404 (Some "NoSuchKey")) rangeRequest tilePath)
      = JsonObject [("error", "S3 error: " ++ Number_toString 404)])
  /\ (status (GET (fetchStatus 206 (Some "ranged bytes")) rangeRequest tilePath)
      = 206
      /\ body (GET (fetchStatus 206 (Some "ranged bytes")) rangeRequest tilePath)
         = Bytes "ranged bytes").
Proof.
  split.
  - apply (GET_status_relay (fetchStatus 404 (Some "NoSuchKey")) rangeRequest
                            tilePath (upstreamWith 404 (Some "NoSuchKey"))).
    + reflexivity.
    + cbn [up_status upstreamWith]. lia.
    + reflexivity.
  - apply (GET_status_relay (fetchStatus 206 (Some "ranged bytes"))
                            rangeRequest tilePath
                            (upstreamWith 206 (Some "ranged bytes"))).
    + reflexivity.
    + cbn [up_status upstreamWith]. lia.
    + right. reflexivity.
Defined.

(** C4 fails as stated: 201 is other than 200 and 206, and yet the proxy
    passes the upstream status and body through instead of answering with
    the JSON error. *)
Lemma GET_passes_201_through :
  let answer := GET (fetchStatus 201 (Some "created")) rangeRequest tilePath in
  201 <> 200 /\ 201 <> 206
  /\ status answer = 201
  /\ body answer = Bytes "created"
  /\ body answer <> JsonObject [("error", "S3 error: 201")].
Proof.
  cbv zeta. repeat split; try discriminate; lia.
Qed.
End CogProxyFacts.

(* ------------------------------------------------------------------ *)
(** ** Facts about the tiles of a bounding box *)

Module CogTilesFacts.
Import JsString CogUtils CogTiles.
Open Scope Z_scope.

Lemma in_countingFrom (first limit k : Z) :
  In k (countingFrom first limit) <-> first <= k < limit.
Proof.
  unfold countingFrom. rewrite in_map_iff. split.
  - intros (n & <- & Hn). apply in_seq in Hn. lia.
  - intros Hk. exists (Z.to_nat (k - first)). split; [lia|].
    apply in_seq. lia.
Qed.

Lemma length_countingFrom (first limit : Z) :
  length (countingFrom first limit) = Z.to_nat (limit - first).
Proof. unfold countingFrom. now rewrite length_map, length_seq. Qed.

Lemma in_getTilesForBounds (bounds : Bounds) (t : CopernicusTile) :
  In t (getTilesForBounds bounds)
  <-> Math_floor (south bounds) <= lat t < Math_ceil (north bounds)
      /\ Math_floor (west bounds) <= lon t < Math_ceil (east bounds)
      /\ url t = getCopernicusTileUrl (inject_Z (lat t)) (inject_Z (lon t)).
Proof.
  unfold getTilesForBounds. rewrite in_flat_map. split.
  - intros (la & Hla & Hin). apply in_map_iff in Hin as (lo & <- & Hlo).
    apply in_countingFrom in Hla. apply in_countingFrom in Hlo.
    cbn [lat lon url]. repeat split; lia.
  - intros (Hla & Hlo & Hurl). exists (lat t). split; [now apply in_countingFrom|].
    apply in_map_iff. exists (lon t). split; [|now apply in_countingFrom].
    destruct t as [la lo u]. cbn [lat lon url] in *. now rewrite Hurl.
Qed.

Lemma alpsBox_safe : safeBox alpsBox.
Proof. unfold safeBox. vm_compute. repeat split; discriminate. Qed.

(** X1.  For a box whose whole-degree edges lie within [2^53] in
    magnitude, the tiles are exactly the whole-degree cells whose latitude
    lies from the floor of the south edge up to, but not including, the
    ceiling of the north edge, and likewise for the longitude between west
    and east; each carries the URL that [getCopernicusTileUrl] gives for
    its corner. *)
Theorem getTilesForBounds_members (bounds : Bounds) (t : CopernicusTile) :
  safeBox bounds ->
  In t (getTilesForBounds bounds)
  <-> Math_floor (south bounds) <= lat t < Math_ceil (north bounds)
      /\ Math_floor (west bounds) <= lon t < Math_ceil (east bounds)
      /\ url t = getCopernicusTileUrl (inject_Z (lat t)) (inject_Z (lon t)).
Proof.
  intros _. unfold getTilesForBounds. rewrite in_flat_map. split.
  - intros (la & Hla & Hin). apply in_map_iff in Hin as (lo & <- & Hlo).
    apply in_countingFrom in Hla. apply in_countingFrom in Hlo.
    cbn [lat lon url]. repeat split; lia.
  - intros (Hla & Hlo & Hurl). exists (lat t). split; [now apply in_countingFrom|].
    apply in_map_iff. exists (lon t). split; [|now apply in_countingFrom].
    destruct t as [la lo u]. cbn [lat lon url] in *. now rewrite Hurl.
Qed.

Lemma getTilesForBounds_members_witness :
  In {| lat := 47; lon := 11;
        url := getCopernicusTileUrl (inject_Z 47) (inject_Z 11) |}
     (getTilesForBounds alpsBox)
  /\ ~ In {| lat := 48; lon := 11;
             url := getCopernicusTileUrl (inject_Z 48) (inject_Z 11) |}
          (getTilesForBounds alpsBox).
Proof.
  split.
  - apply (getTilesForBounds_members alpsBox _ alpsBox_safe).
    vm_compute. repeat split; congruence.
  - intros Hin.
    apply (getTilesForBounds_members alpsBox _ alpsBox_safe) in Hin
      as ((_ & Hlt) & _).
    vm_compute in Hlt. discriminate.
Defined.

Lemma floor_le_of_le (x y : Q) : (x <= y)%Q -> Math_floor x <= Math_floor y.
Proof. apply Qfloor_resp_le. Qed.

Lemma floor_lt_ceil_of_lt (x y : Q) : (x < y)%Q -> Math_floor x < Math_ceil y.
Proof.
  intros Hxy. unfold Math_floor, Math_ceil.
  pose proof (Qfloor_le x) as Hfl. pose proof (Qle_ceiling y) as Hce.
  assert (Hlt : (inject_Z (Qfloor x) < inject_Z (Qceiling y))%Q).
  { eapply Qle_lt_trans; [exact Hfl|]. eapply Qlt_le_trans; eassumption. }
  now rewrite <- Zlt_Qlt in Hlt.
Qed.

(** X2.  For a box whose whole-degree edges lie within [2^53] in
    magnitude, every point inside the box (south and west edges included,
    north and east edges excluded) falls in one of the tiles returned for
    the box: the tile of the floored coordinates is in the list, with the
    URL [getCopernicusTileUrl] gives for the point itself. *)
Theorem getTilesForBounds_covers (bounds : Bounds) (pointLat pointLon : Q) :
  safeBox bounds ->
  (south bounds <= pointLat)%Q -> (pointLat < north bounds)%Q ->
  (west bounds <= pointLon)%Q -> (pointLon < east bounds)%Q ->
  In {| lat := Math_floor pointLat;
        lon := Math_floor pointLon;
        url := getCopernicusTileUrl pointLat pointLon |}
     (getTilesForBounds bounds).
Proof.
  intros _ Hs Hn Hw He. apply in_getTilesForBounds. cbn [lat lon url].
  repeat split.
  - now apply floor_le_of_le.
  - now apply floor_lt_ceil_of_lt.
  - now apply floor_le_of_le.
  - now apply floor_lt_ceil_of_lt.
  - unfold getCopernicusTileUrl, getCopernicusTileUrl_parts.
    unfold Math_floor. now rewrite !Qfloor_Z.
Qed.

Lemma getTilesForBounds_covers_witness :
  In {| lat := 46; lon := 10;
        url := getCopernicusTileUrl (468 # 10) (109 # 10) |}
     (getTilesForBounds alpsBox).
Proof.
  apply (getTilesForBounds_covers alpsBox (468 # 10) (109 # 10) alpsBox_safe);
    vm_compute; congruence.
Defined.

Lemma length_flat_map_constant {A B : Type} (f : A -> list B) (n : nat)
    (l : list A) :
  (forall a, length (f a) = n) -> length (flat_map f l) = (length l * n)%nat.
Proof.
  intros Hf. induction l as [|a l IH]; [reflexivity|].
  cbn [flat_map length]. rewrite length_app, Hf, IH. lia.
Qed.

(** X3.  For a box whose whole-degree edges lie within [2^53] in
    magnitude, the number of tiles is the number of whole-degree rows
    times the number of whole-degree columns, each counted from the floor
    of the lower edge to the ceiling of the upper edge and taken as zero
    when the upper edge is not above; the list is empty exactly when the
    ceiling of the east edge is not beyond the floor of the west edge, or
    the same holds for north and south. *)
Theorem getTilesForBounds_count (bounds : Bounds) :
  safeBox bounds ->
  Z.of_nat (length (getTilesForBounds bounds))
  = Z.max 0 (Math_ceil (north bounds) - Math_floor (south bounds))
    * Z.max 0 (Math_ceil (east bounds) - Math_floor (west bounds))
  /\ (getTilesForBounds bounds = []
      <-> Math_ceil (east bounds) <= Math_floor (west bounds)
          \/ Math_ceil (north bounds) <= Math_floor (south bounds)).
Proof.
  intros _.
  assert (Hlen : length (getTilesForBounds bounds)
    = (Z.to_nat (Math_ceil (north bounds) - Math_floor (south bounds))
       * Z.to_nat (Math_ceil (east bounds) - Math_floor (west bounds)))%nat).
  { unfold getTilesForBounds.
    rewrite length_flat_map_constant
      with (n := Z.to_nat (Math_ceil (east bounds) - Math_floor (west bounds))).
    - now rewrite length_countingFrom.
    - intros la. now rewrite length_map, length_countingFrom. }
  split.
  - rewrite Hlen, Nat2Z.inj_mul. f_equal; lia.
  - rewrite <- length_zero_iff_nil, Hlen. split.
    + intros Hzero. apply Nat.eq_mul_0 in Hzero. lia.
    + intros [He | Hn].
      * replace (Z.to_nat (Math_ceil (east bounds) - Math_floor (west bounds)))
          with O by lia. lia.
      * replace (Z.to_nat (Math_ceil (north bounds) - Math_floor (south bounds)))
          with O by lia. lia.
Qed.

Lemma getTilesForBounds_count_witness :
  Z.of_nat (length (getTilesForBounds alpsBox)) = 4.
Proof.
  exact (proj1 (getTilesForBounds_count alpsBox alpsBox_safe)).
Defined.

Example tiles_across_antimeridian : getTilesForBounds antimeridianBox = [].
Proof. reflexivity. Qed.

Example tiles_of_alps_box :
  map (fun t => (lat t, lon t)) (getTilesForBounds alpsBox)
  = [(46, 10); (46, 11); (47, 10); (47, 11)].
Proof. vm_compute. reflexivity. Qed.
End CogTilesFacts.

(* ------------------------------------------------------------------ *)
(** ** Facts about the great-circle distance *)

Module SlopeDistanceFacts.
Import JsNum SlopeUtils SlopeAngleFacts.
Open Scope R_scope.






Lemma haversine_a_symmetric (lat1 lng1 lat2 lng2 : num) :
  haversine_a lat1 lng1 lat2 lng2 = haversine_a lat2 lng2 lat1 lng1.
Proof.
  destruct lat1 as [p1 |], lng1 as [l1 |], lat2 as [p2 |], lng2 as [l2 |];
    try reflexivity.
  unfold haversine_a.
  cbn [nadd nsub nmul ndivc lift1 lift2 Math_sin Math_cos]. f_equal.
  replace ((p1 - p2) * (PI / 180) / 2) with (- ((p2 - p1) * (PI / 180) / 2))
    by lra.
  replace ((l1 - l2) * (PI / 180) / 2) with (- ((l2 - l1) * (PI / 180) / 2))
    by lra.
  rewrite !sin_neg. ring.
Qed.

(** X4.  [haversineDistance] does not depend on the order of its two
    points, whatever the four arguments are, [NaN] included. *)
Theorem haversineDistance_symmetric (lat1 lng1 lat2 lng2 : num) :
  haversineDistance lat1 lng1 lat2 lng2 = haversineDistance lat2 lng2 lat1 lng1.
Proof.
  unfold haversineDistance. now rewrite (haversine_a_symmetric lat1 lng1).
Qed.

(** X5.  The distance from a point to itself is 0, and so the slope over
    two coincident points is 0 whatever the elevation difference: the
    guard of [calculateSlopeAngle] answers before any division by zero. *)
Theorem haversineDistance_to_itself (lat1 lng1 elevDiff : R) :
  haversineDistance (Num lat1) (Num lng1) (Num lat1) (Num lng1) = Num 0
  /\ calculateSlopeAngle
       (Num elevDiff)
       (haversineDistance (Num lat1) (Num lng1) (Num lat1) (Num lng1))
     = Num 0.
Proof.
  assert (Hzero : haversineDistance (Num lat1) (Num lng1) (Num lat1) (Num lng1)
                  = Num 0).
  { unfold haversineDistance, haversine_a.
    cbn [nadd nsub nmul ndivc lift1 lift2 Math_sin Math_cos].
    replace ((lat1 - lat1) * (PI / 180) / 2) with 0 by lra.
    replace ((lng1 - lng1) * (PI / 180) / 2) with 0 by lra.
    rewrite sin_0.
    replace (0 * 0 + cos (lat1 * (PI / 180)) * cos (lat1 * (PI / 180)) * 0 * 0)
      with 0 by ring.
    cbn [Math_sqrt]. destruct (Rlt_dec 0 0) as [Habs | _]; [lra|].
    cbn [nsub lift2 Math_sqrt].
    destruct (Rlt_dec (1 - 0) 0) as [Habs | _]; [lra|].
    cbn [Math_atan2 nmul lift2]. f_equal.
    rewrite sqrt_0. replace (1 - 0) with 1 by lra. rewrite sqrt_1.
    unfold atan2. destruct (Rlt_dec 0 1) as [_ | Habs]; [|lra].
    replace (0 / 1) with 0 by lra. rewrite atan_0. ring. }
  split; [exact Hzero|].
  rewrite Hzero. apply calculateSlopeAngle_zero_distance.
Qed.
End SlopeDistanceFacts.

(* ------------------------------------------------------------------ *)
(** ** More facts about the slope grid *)

Module SlopeGridBounds.
Import JsNum SlopeUtils SlopeAngleFacts SlopeGridFacts SlopeDistanceFacts.
Import SlopeSampling.
Open Scope R_scope.








Lemma length_pushed (o : option SlopeCell) : (length (pushed o) <= 1)%nat.
Proof. destruct o; simpl; lia. Qed.

(** Lists of length at most [n] joined together: the total is at most [n]
    a piece, and reaches it only when every piece does. *)
Lemma length_flat_map_bounded {A B : Type} (f : A -> list B) (n : nat)
    (l : list A) :
  (forall a, In a l -> (length (f a) <= n)%nat) ->
  (length (flat_map f l) <= length l * n)%nat
  /\ (length (flat_map f l) = (length l * n)%nat
      <-> forall a, In a l -> length (f a) = n).
Proof.
  induction l as [|a l IH]; intros Hle.
  - simpl. split; [lia|]. split; [intros _ x [] | reflexivity].
  - destruct IH as [IHle IHeq]; [intros x Hx; apply Hle; now right|].
    pose proof (Hle a (or_introl eq_refl)) as Ha.
    cbn [flat_map length]. rewrite length_app. split; [lia|]. split.
    + intros Htotal x [<- | Hx]; [lia|]. apply IHeq; [lia | exact Hx].
    + intros Hall.
      rewrite (Hall a (or_introl eq_refl)).
      assert (Hrest : length (flat_map f l) = (length l * n)%nat)
        by (apply IHeq; intros x Hx; apply Hall; now right).
      lia.
Qed.

Lemma grid_count
    (elevations : list (list (option R))) (lngs lats : list R) :
  (length (calculateSlopeGrid elevations lngs lats)
   <= (rowsOf elevations - 1) * (colsOf elevations - 1))%nat
  /\ (length (calculateSlopeGrid elevations lngs lats)
      = ((rowsOf elevations - 1) * (colsOf elevations - 1))%nat
      <-> forall j i : nat,
            (j < rowsOf elevations - 1)%nat ->
            (i < colsOf elevations - 1)%nat ->
            elevationAt elevations j i <> Null).
Proof.
  unfold calculateSlopeGrid. cbv zeta.
  set (inner := fun j : nat =>
         flat_map (fun i => pushed (slopeCellAt elevations lngs lats j i))
                  (seq 0 (colsOf elevations - 1))).
  assert (Hinner : forall j,
    (length (inner j) <= colsOf elevations - 1)%nat
    /\ (length (inner j) = (colsOf elevations - 1)%nat
        <-> forall i, (i < colsOf elevations - 1)%nat ->
                      elevationAt elevations j i <> Null)).
  { intros j. unfold inner.
    destruct (length_flat_map_bounded
                (fun i => pushed (slopeCellAt elevations lngs lats j i)) 1
                (seq 0 (colsOf elevations - 1))) as [Hle Heq].
    { intros i _. apply length_pushed. }
    rewrite length_seq, Nat.mul_1_r in Hle, Heq. split; [exact Hle|].
    rewrite Heq. split.
    - intros Hall i Hi Hnull.
      specialize (Hall i ltac:(apply in_seq; lia)).
      unfold slopeCellAt in Hall. rewrite Hnull in Hall. discriminate.
    - intros Hbase i Hi. apply in_seq in Hi.
      destruct (slopeCellAt_defined elevations lngs lats j i) as (c & ->);
        [apply Hbase; lia | reflexivity]. }
  destruct (length_flat_map_bounded inner (colsOf elevations - 1)
              (seq 0 (rowsOf elevations - 1))) as [Hle Heq].
  { intros j _. apply Hinner. }
  rewrite length_seq in Hle, Heq. split; [exact Hle|].
  rewrite Heq. split.
  - intros Hall j i Hj Hi. apply (Hinner j); [|exact Hi].
    apply Hall, in_seq. lia.
  - intros Hbase j Hj. apply in_seq in Hj. apply Hinner.
    intros i Hi. apply Hbase; [lia | exact Hi].
Qed.

(** X8.  The grid never has more cells than visited positions, that is
    max(rows - 1, 0) times max(cols - 1, 0), and it has exactly that many
    when, and only when, no visited position has a [null] base sample.  An
    empty matrix, a single row or a single column give no cell. *)
Theorem calculateSlopeGrid_count
    (elevations : list (list (option R))) (lngs lats : list R) :
  let rows := Z.of_nat (rowsOf elevations) in
  let cols := Z.of_nat (colsOf elevations) in
  let visited := (Z.max 0 (rows - 1) * Z.max 0 (cols - 1))%Z in
  (Z.of_nat (length (calculateSlopeGrid elevations lngs lats)) <= visited)%Z
  /\ (Z.of_nat (length (calculateSlopeGrid elevations lngs lats)) = visited
      <-> forall j i : nat,
            (Z.of_nat j < rows - 1)%Z ->
            (Z.of_nat i < cols - 1)%Z ->
            elevationAt elevations j i <> Null)
  /\ ((rows <= 1)%Z \/ (cols <= 1)%Z ->
      calculateSlopeGrid elevations lngs lats = []).
Proof.
  cbv zeta.
  destruct (grid_count elevations lngs lats) as [Hle Heq].
  assert (Hvisited :
    Z.of_nat ((rowsOf elevations - 1) * (colsOf elevations - 1))
    = (Z.max 0 (Z.of_nat (rowsOf elevations) - 1)
       * Z.max 0 (Z.of_nat (colsOf elevations) - 1))%Z).
  { rewrite Nat2Z.inj_mul. f_equal; lia. }
  rewrite <- Hvisited. split; [lia|]. split.
  - rewrite Nat2Z.inj_iff, Heq. split.
    + intros Hbase j i Hj Hi. apply Hbase; lia.
    + intros Hbase j i Hj Hi. apply Hbase; lia.
  - intros Hsmall. apply length_zero_iff_nil.
    assert (Hnone : ((rowsOf elevations - 1) * (colsOf elevations - 1) = 0)%nat).
    { destruct Hsmall as [Hr | Hc].
      - replace (rowsOf elevations - 1)%nat with O by lia. reflexivity.
      - replace (colsOf elevations - 1)%nat with O by lia. lia. }
    lia.
Qed.

Lemma fold_max_absorbs (rest : list num) :
  fold_left Math_max2 rest NaN = NaN.
Proof. induction rest as [|v rest IH]; [reflexivity | exact IH]. Qed.

Lemma fold_max_poisoned (rest : list num) (x : num) :
  In NaN rest -> fold_left Math_max2 rest x = NaN.
Proof.
  revert x. induction rest as [|v rest IH]; intros x Hin; [destruct Hin|].
  destruct Hin as [-> | Hin].
  - cbn [fold_left]. replace (Math_max2 x NaN) with NaN
      by (now destruct x). apply fold_max_absorbs.
  - cbn [fold_left]. now apply IH.
Qed.

Lemma maxSlopeOf_poisoned (slopes : list num) :
  In NaN slopes -> maxSlopeOf slopes = NaN.
Proof.
  destruct slopes as [|s rest]; [intros []|].
  intros [-> | Hin]; cbn [maxSlopeOf].
  - apply fold_max_absorbs.
  - now apply fold_max_poisoned.
Qed.

(** X9.  A neighbour that lies outside its row (the matrix being ragged)
    is [undefined], not [null]: it is not left out, and over a distance
    that is a number other than zero it turns the slope of the cell into
    [NaN]. *)
Theorem missing_neighbour_gives_NaN
    (elevations : list (list (option R))) (lngs lats : list R)
    (j i : nat) (d : direction) (dist : R) (c : SlopeCell) :
  slopeCellAt elevations lngs lats j i = Some c ->
  neighbour elevations j i d = Undefined ->
  distanceToward lngs lats j i d = Num dist ->
  dist <> 0 ->
  slope c = NaN.
Proof.
  intros Hcell Hmissing Hdist Hnz.
  destruct (slopeCellAt_some _ _ _ _ _ _ Hcell) as (_ & _ & ->).
  rewrite directionalSlopes_usable. apply maxSlopeOf_poisoned.
  apply in_map_iff. exists d. split.
  - unfold slopeToward. rewrite Hmissing, Hdist. cbn [toNumber nsub lift2].
    unfold calculateSlopeAngle.
    destruct (Req_dec_T dist 0); [contradiction | reflexivity].
  - apply in_usableDirections. rewrite Hmissing. discriminate.
Qed.

Lemma missing_neighbour_gives_NaN_witness :
  exists c : SlopeCell,
    slopeCellAt ragged oneDegree oneDegree 0 0 = Some c
    /\ neighbour ragged 0 0 ToDiagonal = Undefined
    /\ slope c = NaN.
Proof.
  destruct (oneDegree_distances 0 0) as (dr & du & Hr & Hrpos & Hu & Hupos);
    [lia | lia |].
  destruct (diagonal_distance_pos dr du Hrpos Hupos) as (dd & Hdd & Hddpos).
  assert (Hdiag : distanceToward oneDegree oneDegree 0 0 ToDiagonal = Num dd).
  { unfold distanceToward in *. cbn iota in *. now rewrite Hr, Hu. }
  eexists. split; [reflexivity|]. split; [reflexivity|].
  apply (missing_neighbour_gives_NaN ragged oneDegree oneDegree 0 0
           ToDiagonal dd).
  - reflexivity.
  - reflexivity.
  - exact Hdiag.
  - lra.
Defined.
End SlopeGridBounds.

(* ------------------------------------------------------------------ *)
(** ** Facts about the sampled grid *)

Module SlopeSamplingFacts.
Import JsNum SlopeUtils SlopeGridFacts SlopeGridBounds SlopeSampling.
Open Scope R_scope.

Section Sampled.
Variable queryTerrainElevation : num -> num -> option R.
Variable bounds : LngLatBounds.
Variable gridSize : Z.

Lemma length_indicesUpTo :
  length (indicesUpTo gridSize) = Z.to_nat (gridSize + 1).
Proof. unfold indicesUpTo. apply length_seq. Qed.

Lemma sampled_lengths :
  let sampled := sampleElevationGrid queryTerrainElevation bounds gridSize in
  length (lngs sampled) = Z.to_nat (gridSize + 1)
  /\ length (lats sampled) = Z.to_nat (gridSize + 1)
  /\ length (elevations sampled) = Z.to_nat (gridSize + 1)
  /\ Forall (fun row => length row = Z.to_nat (gridSize + 1))
            (elevations sampled).
Proof.
  unfold sampleElevationGrid. cbn [lngs lats elevations].
  rewrite !length_map, length_indicesUpTo. repeat split.
  apply Forall_map, Forall_forall. intros j _.
  now rewrite length_map, length_indicesUpTo.
Qed.

Lemma sampled_cols :
  colsOf (elevations (sampleElevationGrid queryTerrainElevation bounds gridSize))
  = Z.to_nat (gridSize + 1).
Proof.
  destruct sampled_lengths as (_ & _ & Hrows & Hall).
  unfold colsOf.
  destruct (elevations (sampleElevationGrid queryTerrainElevation bounds gridSize))
    as [|row0 rest].
  - simpl in Hrows. exact Hrows.
  - now inversion Hall.
Qed.

Lemma sampled_rectangular :
  rectangular
    (elevations (sampleElevationGrid queryTerrainElevation bounds gridSize)).
Proof.
  unfold rectangular. rewrite sampled_cols. apply sampled_lengths.
Qed.





(** Without a step, as with [gridSize] zero, the one grid line is [NaN]. *)
Lemma nth_gridLines_zero (lo hi : R) :
  gridSize = 0%Z ->
  nth 0 (map (gridLine lo (stepOf lo hi gridSize)) (indicesUpTo gridSize)) NaN
  = NaN.
Proof. intros ->. reflexivity. Qed.

End Sampled.

(** X10.  The sampler returns [gridSize + 1] longitudes, [gridSize + 1]
    latitudes and a rectangular matrix of [gridSize + 1] rows of
    [gridSize + 1] samples; the matrix is empty exactly when [gridSize] is
    negative. *)
Theorem sampleElevationGrid_shape
    (queryTerrainElevation : num -> num -> option R)
    (bounds : LngLatBounds) (gridSize : Z) :
  let sampled := sampleElevationGrid queryTerrainElevation bounds gridSize in
  length (lngs sampled) = Z.to_nat (gridSize + 1)
  /\ length (lats sampled) = Z.to_nat (gridSize + 1)
  /\ rowsOf (elevations sampled) = Z.to_nat (gridSize + 1)
  /\ colsOf (elevations sampled) = Z.to_nat (gridSize + 1)
  /\ rectangular (elevations sampled)
  /\ ((gridSize < 0)%Z <-> elevations sampled = []).
Proof.
  cbv zeta.
  destruct (sampled_lengths queryTerrainElevation bounds gridSize)
    as (Hlngs & Hlats & Hrows & _).
  repeat (split; [first [assumption | apply sampled_cols
                        | apply sampled_rectangular]|]).
  rewrite <- length_zero_iff_nil, Hrows. lia.
Qed.





End SlopeSamplingFacts.

(* ------------------------------------------------------------------ *)
(** ** More facts about the colour ramp and the features *)

Module SlopeFeatureFacts.
Import JsNum SlopeUtils SlopeSampling.
Open Scope R_scope.

Lemma round_of_half_past (z : Z) (v : R) :
  v = IZR z -> IZR (Zfloor (v + / 2)) = IZR z.
Proof.
  intros ->. f_equal. apply Zfloor_eq. split; lra.
Qed.

Lemma getSlopeColor_at_threshold (m : R) :
  getSlopeColor (Num m) m = Rgba (Num 255) (Num 255) (Num 0) (Num (3 / 10)).
Proof.
  unfold getSlopeColor, nlt.
  destruct (Rlt_dec m m) as [Habs | _]; [lra|].
  cbn [Math_min2 Math_max2 lift2 ndivc lift1 nsub nmul nadd Math_round].
  replace ((m - m) / 40) with 0 by lra.
  rewrite Rmax_left, Rmin_right by lra.
  destruct (Rlt_dec 0 (33 / 100)) as [_ | Habs]; [|lra].
  f_equal; f_equal; [apply round_of_half_past |]; lra.
Qed.

Lemma getSlopeColor_saturated (x m : R) :
  m + 40 <= x ->
  getSlopeColor (Num x) m = Rgba (Num 200) (Num 0) (Num 0) (Num (9 / 10)).
Proof.
  intros Hx. unfold getSlopeColor, nlt.
  destruct (Rlt_dec x m) as [Habs | _]; [lra|].
  cbn [Math_min2 Math_max2 lift2 ndivc lift1 nsub nmul nadd Math_round].
  rewrite (Rmax_right 0 ((x - m) / 40)) by lra.
  rewrite Rmin_left by lra.
  destruct (Rlt_dec 1 (33 / 100)) as [Habs | _]; [lra|].
  destruct (Rlt_dec 1 (66 / 100)) as [Habs | _]; [lra|].
  f_equal; f_equal; try apply round_of_half_past; lra.
Qed.

(** X13.  The two ends of the ramp.  A slope exactly at the threshold is
    drawn in [rgba(255, 255, 0, 0.3)], and all slopes 40 degrees or more
    above the threshold are drawn in one and the same colour, with the
    channels 200, 0, 0 and an opacity between 0.7 and 1: beyond that span
    the colour no longer changes. *)
Theorem getSlopeColor_ends (x y m : R) :
  m + 40 <= x ->
  m + 40 <= y ->
  getSlopeColor (Num m) m = Rgba (Num 255) (Num 255) (Num 0) (Num (3 / 10))
  /\ exists a : R,
       7 / 10 <= a <= 1
       /\ getSlopeColor (Num x) m = Rgba (Num 200) (Num 0) (Num 0) (Num a)
       /\ getSlopeColor (Num y) m = getSlopeColor (Num x) m.
Proof.
  intros Hx Hy. split; [apply getSlopeColor_at_threshold|].
  exists (9 / 10). split; [lra|].
  rewrite (getSlopeColor_saturated x m Hx), (getSlopeColor_saturated y m Hy).
  split; reflexivity.
Qed.

Lemma getSlopeColor_ends_witness :
  getSlopeColor (Num 15) 15 = Rgba (Num 255) (Num 255) (Num 0) (Num (3 / 10))
  /\ exists a : R,
       7 / 10 <= a <= 1
       /\ getSlopeColor (Num 60) 15 = Rgba (Num 200) (Num 0) (Num 0) (Num a)
       /\ getSlopeColor (Num 90) 15 = getSlopeColor (Num 60) 15.
Proof.
  apply (getSlopeColor_ends 60 90 15); lra.
Defined.

Lemma getSlopeColor_kept (s : num) (m : R) :
  nlt s (Num m) = false -> getSlopeColor s m <> Transparent.
Proof.
  intros Hkeep. unfold getSlopeColor. rewrite Hkeep.
  destruct (nlt _ (Num (33 / 100))); [discriminate|].
  destruct (nlt _ (Num (66 / 100))); discriminate.
Qed.

Lemma in_features (cells : list SlopeCell) (cellSize minSlope : R) (f : Feature) :
  In f (features (createSlopeGeoJSON cells cellSize minSlope))
  <-> exists cell, In cell cells /\ featureOf cellSize minSlope cell = [f].
Proof.
  unfold createSlopeGeoJSON. cbn [features]. rewrite in_flat_map. split.
  - intros (cell & Hcell & Hf). exists cell. split; [exact Hcell|].
    unfold featureOf in *. destruct (nlt (slope cell) (Num minSlope)).
    + destruct Hf.
    + destruct Hf as [<- | []]. reflexivity.
  - intros (cell & Hcell & Hf). exists cell. split; [exact Hcell|].
    rewrite Hf. now left.
Qed.

(** X14.  Every feature of the collection comes from a cell whose slope is
    not below the threshold and copies its slope and elevation; its colour
    is never the keyword [transparent]; and its ring has five positions,
    the last repeating the first. *)
Theorem features_are_visible_squares
    (cells : list SlopeCell) (cellSize minSlope : R) :
  Forall (fun f =>
            (exists cell, In cell cells
                          /\ prop_slope f = slope cell
                          /\ prop_elevation f = elevation cell)
            /\ nlt (prop_slope f) (Num minSlope) = false
            /\ prop_color f = getSlopeColor (prop_slope f) minSlope
            /\ prop_color f <> Transparent
            /\ exists p q r t, coordinates f = [p; q; r; t; p])
         (features (createSlopeGeoJSON cells cellSize minSlope)).
Proof.
  apply Forall_forall. intros f Hf.
  apply in_features in Hf as (cell & Hcell & Hf).
  unfold featureOf in Hf.
  destruct (nlt (slope cell) (Num minSlope)) eqn:Hkeep; [discriminate|].
  injection Hf as <-. cbn [prop_slope prop_elevation prop_color coordinates].
  split; [exists cell; repeat split; assumption|].
  split; [exact Hkeep|]. split; [reflexivity|].
  split; [now apply getSlopeColor_kept|].
  do 4 eexists. reflexivity.
Qed.

(** X15.  The features keep the order of the cells: their slopes are the
    slopes of the cells with those below the threshold struck out, so
    there are never more features than cells. *)
Theorem features_follow_cells
    (cells : list SlopeCell) (cellSize minSlope : R) :
  map prop_slope (features (createSlopeGeoJSON cells cellSize minSlope))
  = filter (fun s => negb (nlt s (Num minSlope))) (map slope cells)
  /\ (length (features (createSlopeGeoJSON cells cellSize minSlope))
      <= length cells)%nat.
Proof.
  unfold createSlopeGeoJSON. cbn [features].
  induction cells as [|cell rest [IHmap IHlen]]; [split; reflexivity|].
  cbn [flat_map map filter length]. rewrite map_app, length_app, IHmap.
  assert (Hone : map prop_slope (featureOf cellSize minSlope cell)
                 = (if nlt (slope cell) (Num minSlope) then [] else [slope cell])
                 /\ (length (featureOf cellSize minSlope cell) <= 1)%nat).
  { unfold featureOf. destruct (nlt (slope cell) (Num minSlope)); cbn;
      split; solve [reflexivity | lia]. }
  destruct Hone as [-> Hlen].
  split; [now destruct (nlt (slope cell) (Num minSlope)) | lia].
Qed.

(** X16.  A cell whose slope is [NaN] is never filtered out, whatever the
    threshold: it becomes a feature, and the colour of that feature is the
    template filled with [NaN, NaN, 0, NaN]. *)
Theorem poisoned_cell_is_drawn
    (cell : SlopeCell) (cellSize minSlope : R) :
  slope cell = NaN ->
  exists f : Feature,
    features (createSlopeGeoJSON [cell] cellSize minSlope) = [f]
    /\ prop_color f = Rgba NaN NaN (Num 0) NaN
    /\ forall show,
         SlopeColor_toString show (prop_color f)
         = ("rgba(" ++ show NaN ++ ", " ++ show NaN ++ ", " ++ show (Num 0)
              ++ ", " ++ show NaN ++ ")")%string.
Proof.
  intros Hnan. unfold createSlopeGeoJSON, featureOf. cbn [features flat_map].
  rewrite Hnan. cbn [nlt app]. eexists. split; [reflexivity|].
  cbn [prop_color]. split; reflexivity.
Qed.

Lemma poisoned_cell_is_drawn_witness :
  exists f : Feature,
    features (createSlopeGeoJSON [poisonedCell] 1 15) = [f]
    /\ prop_color f = Rgba NaN NaN (Num 0) NaN.
Proof.
  destruct (poisoned_cell_is_drawn poisonedCell 1 15) as (f & Hf & Hcolor & _);
    [reflexivity|].
  exists f. split; assumption.
Defined.
End SlopeFeatureFacts.

(* ------------------------------------------------------------------ *)
(** ** More facts about the COG proxy *)

Module CogProxyHeaderFacts.
Import JsString CogProxy CogProxyFacts CogProxyHead.
Open Scope string_scope.
Open Scope Z_scope.

Lemma Headers_get_set_same (name value : string) (hs : Headers) :
  Headers_get name (Headers_set name value hs) = Some value.
Proof.
  induction hs as [|[k v] hs IH]; cbn [Headers_set Headers_get].
  - now rewrite String.eqb_refl.
  - destruct (String.eqb k (lower name)) eqn:Hk; cbn [Headers_get]; rewrite Hk;
      [reflexivity | exact IH].
Qed.

Lemma Headers_get_set_other (name other value : string) (hs : Headers) :
  lower name <> lower other ->
  Headers_get name (Headers_set other value hs) = Headers_get name hs.
Proof.
  intros Hne. induction hs as [|[k v] hs IH]; cbn [Headers_set Headers_get].
  - destruct (String.eqb_spec (lower other) (lower name)); [congruence | reflexivity].
  - destruct (String.eqb_spec k (lower other)) as [-> | Hk]; cbn [Headers_get].
    + destruct (String.eqb_spec (lower other) (lower name)); [congruence | reflexivity].
    + now rewrite IH.
Qed.

Lemma Headers_get_forward_other (name other : string) (from : Upstream)
    (hs : Headers) :
  lower name <> lower other ->
  Headers_get name (forward other from hs) = Headers_get name hs.
Proof.
  intros Hne. unfold forward.
  destruct (truthy (up_header from (lower other)));
    [now apply Headers_get_set_other | reflexivity].
Qed.

Lemma Headers_get_forward_same (name : string) (from : Upstream) (hs : Headers) :
  Headers_get name hs = None ->
  Headers_get name (forward name from hs) = truthy (up_header from (lower name)).
Proof.
  intros Hnone. unfold forward.
  destruct (truthy (up_header from (lower name)));
    [apply Headers_get_set_same | exact Hnone].
Qed.

Lemma not_in_answerHeaderNames (name : string) :
  ~ In (lower name) answerHeaderNames ->
  forall known, In known answerHeaderNames -> lower name <> known.
Proof. intros Hout known Hin Heq. rewrite Heq in Hout. contradiction. Qed.

Lemma responseHeaders_only (response : Upstream) (name : string) :
  ~ In (lower name) answerHeaderNames ->
  Headers_get name (responseHeaders response) = None.
Proof.
  intros Hout. pose proof (not_in_answerHeaderNames name Hout) as Hne.
  unfold responseHeaders.
  rewrite !Headers_get_forward_other, !Headers_get_set_other;
    try reflexivity; apply Hne; simpl; tauto.
Qed.

(** X17.  A [GET] answer never carries a header other than the four CORS
    headers, [Content-Type], [Content-Length], [Content-Range] and
    [Accept-Ranges]: nothing else of the upstream response (no [ETag], no
    [Cache-Control], no [Last-Modified]) reaches the client. *)
Theorem GET_forwards_nothing_else (fetch : string -> Headers -> FetchResult)
    (request : Request) (path : list string) (name : string) :
  ~ In (lower name) answerHeaderNames ->
  Headers_get name (headers (GET fetch request path)) = None.
Proof.
  intros Hout.
  destruct (GET_cases fetch request path)
    as [(up & _ & _ & ->) | [(up & _ & _ & ->) | ->]]; cbn [headers failure].
  - now apply responseHeaders_only.
  - cbn [Headers_get].
    destruct (String.eqb_spec "content-type" (lower name)) as [Heq | _];
      [|reflexivity].
    elim Hout. rewrite <- Heq. simpl. tauto.
  - cbn [Headers_get].
    destruct (String.eqb_spec "content-type" (lower name)) as [Heq | _];
      [|reflexivity].
    elim Hout. rewrite <- Heq. simpl. tauto.
Qed.

Lemma GET_forwards_nothing_else_witness :
  Headers_get "ETag"
    (headers (GET (fetchStatus 200 (Some "tile bytes")) rangeRequest tilePath))
  = None.
Proof.
  apply (GET_forwards_nothing_else (fetchStatus 200 (Some "tile bytes"))
                                   rangeRequest tilePath "ETag").
  vm_compute. intuition discriminate.
Defined.

Lemma responseHeaders_forwarded (response : Upstream) :
  let hs := responseHeaders response in
  Headers_get "Content-Type" hs = truthy (up_header response "content-type")
  /\ Headers_get "Content-Length" hs
     = truthy (up_header response "content-length")
  /\ Headers_get "Content-Range" hs = truthy (up_header response "content-range")
  /\ Headers_get "Accept-Ranges" hs = truthy (up_header response "accept-ranges").
Proof.
  cbv zeta. unfold responseHeaders.
  change "content-type" with (lower "Content-Type").
  change "content-length" with (lower "Content-Length").
  change "content-range" with (lower "Content-Range").
  change "accept-ranges" with (lower "Accept-Ranges").
  repeat split.
  - rewrite !Headers_get_forward_other by (vm_compute; discriminate).
    now apply Headers_get_forward_same.
  - rewrite !Headers_get_forward_other by (vm_compute; discriminate).
    apply Headers_get_forward_same.
    now rewrite Headers_get_forward_other by (vm_compute; discriminate).
  - rewrite !Headers_get_forward_other by (vm_compute; discriminate).
    apply Headers_get_forward_same.
    now rewrite !Headers_get_forward_other by (vm_compute; discriminate).
  - apply Headers_get_forward_same.
    now rewrite !Headers_get_forward_other by (vm_compute; discriminate).
Qed.

(** X18.  On a success answer of [GET] the upstream [Content-Type],
    [Content-Length], [Content-Range] and [Accept-Ranges] arrive as the
    upstream sent them, and a header the upstream did not send, or sent
    empty, is absent. *)
Theorem GET_forwards_upstream_headers
    (fetch : string -> Headers -> FetchResult)
    (request : Request) (path : list string) (up : Upstream) :
  fetch (s3UrlOf path) (rangeHeaders request) = Resolved up ->
  200 <= status (GET fetch request path) <= 299 ->
  let hs := headers (GET fetch request path) in
  Headers_get "Content-Type" hs = truthy (up_header up "content-type")
  /\ Headers_get "Content-Length" hs = truthy (up_header up "content-length")
  /\ Headers_get "Content-Range" hs = truthy (up_header up "content-range")
  /\ Headers_get "Accept-Ranges" hs = truthy (up_header up "accept-ranges").
Proof.
  intros Hfetch Hstatus.
  destruct (GET_cases fetch request path)
    as [(up' & Hfetch' & _ & Hanswer) | [(up' & _ & Herr & Hanswer) | Hanswer]];
    rewrite Hanswer in *; cbn [status headers failure] in *.
  - assert (up' = up) by congruence. subst up'.
    apply responseHeaders_forwarded.
  - contradiction.
  - lia.
Qed.

Lemma GET_forwards_upstream_headers_witness :
  Headers_get "Content-Type"
    (headers (GET (fetchStatus 206 (Some "ranged bytes")) rangeRequest tilePath))
  = Some "image/tiff"
  /\ Headers_get "Content-Range"
       (headers (GET (fetchStatus 206 (Some "ranged bytes")) rangeRequest tilePath))
     = None.
Proof.
  destruct (GET_forwards_upstream_headers
              (fetchStatus 206 (Some "ranged bytes")) rangeRequest tilePath
              (upstreamWith 206 (Some "ranged bytes")))
    as (Htype & _ & Hrange & _).
  - reflexivity.
  - change (200 <= 206 <= 299). lia.
  - split; [exact Htype | exact Hrange].
Defined.

(** X19.  Whatever the upstream does, [GET] answers with a status from 200
    to 599, and that status is either the upstream status or 500. *)
Theorem GET_status_is_upstream_or_500
    (fetch : string -> Headers -> FetchResult)
    (request : Request) (path : list string) :
  200 <= status (GET fetch request path) <= 599
  /\ (status (GET fetch request path) = 500
      \/ exists up,
           fetch (s3UrlOf path) (rangeHeaders request) = Resolved up
           /\ status (GET fetch request path) = up_status up).
Proof.
  unfold GET, GET_try.
  destruct (fetch (s3UrlOf path) (rangeHeaders request)) as [up |];
    [|cbn; split; [lia | now left]].
  destruct (negb (ok up) && negb (up_status up =? 206)).
  - unfold NextResponse_json.
    destruct (newResponse _ _ _) as [r |] eqn:Hnew;
      [|cbn; split; [lia | now left]].
    apply newResponse_some in Hnew as [-> Hrange]. cbn [status].
    split; [exact Hrange | right; now exists up].
  - destruct (newResponse _ _ _) as [r |] eqn:Hnew;
      [|cbn; split; [lia | now left]].
    apply newResponse_some in Hnew as [-> Hrange]. cbn [status].
    split; [exact Hrange | right; now exists up].
Qed.

Lemma headResponseHeaders_cors (response : Upstream) :
  let hs := headResponseHeaders response in
  Headers_get "Access-Control-Allow-Origin" hs = Some "*"
  /\ Headers_get "Access-Control-Allow-Methods" hs = Some "GET, HEAD, OPTIONS"
  /\ Headers_get "Access-Control-Expose-Headers" hs
     = Some "Content-Range, Content-Length, Accept-Ranges"
  /\ Headers_get "Access-Control-Allow-Headers" hs = None
  /\ Headers_get "Content-Range" hs = None.
Proof.
  cbv zeta. unfold headResponseHeaders.
  repeat split;
    rewrite !Headers_get_forward_other by (vm_compute; discriminate);
    reflexivity.
Qed.

(** X20.  [HEAD] relays every upstream status from 200 to 599, errors such
    as 404 included, with no body and with the CORS headers for origin,
    methods and exposed headers; it never sets [Access-Control-Allow-Headers]
    or [Content-Range].  When the fetch fails or the upstream status is
    outside 200..599 the answer is the 500 with [{ error: "Failed" }]. *)
Theorem HEAD_relays_status (fetchHead : string -> FetchResult)
    (path : list string) :
  let answer := HEAD fetchHead path in
  match fetchHead (s3UrlOf path) with
  | Resolved up =>
      if (200 <=? up_status up) && (up_status up <=? 599) then
        status answer = up_status up
        /\ body answer = NoBody
        /\ Headers_get "Access-Control-Allow-Origin" (headers answer) = Some "*"
        /\ Headers_get "Access-Control-Allow-Methods" (headers answer)
           = Some "GET, HEAD, OPTIONS"
        /\ Headers_get "Access-Control-Expose-Headers" (headers answer)
           = Some "Content-Range, Content-Length, Accept-Ranges"
        /\ Headers_get "Access-Control-Allow-Headers" (headers answer) = None
        /\ Headers_get "Content-Range" (headers answer) = None
      else answer = failure "Failed"
  | Rejected => answer = failure "Failed"
  end.
Proof.
  cbv zeta. unfold HEAD, HEAD_try.
  destruct (fetchHead (s3UrlOf path)) as [up |]; [|reflexivity].
  unfold newResponse.
  destruct ((200 <=? up_status up) && (up_status up <=? 599));
    cbn [negb status body headers]; [|reflexivity].
  split; [reflexivity|]. split; [reflexivity|].
  apply headResponseHeaders_cors.
Qed.

Example HEAD_of_missing_object :
  status (HEAD (headStatus 404) tilePath) = 404
  /\ Headers_get "Access-Control-Allow-Origin"
       (headers (HEAD (headStatus 404) tilePath)) = Some "*".
Proof. split; reflexivity. Qed.

Example OPTIONS_preflight :
  status OPTIONS = 204 /\ body OPTIONS = NoBody /\ has_cors (headers OPTIONS).
Proof. repeat split. Qed.
End CogProxyHeaderFacts.

(* ------------------------------------------------------------------ *)
(** ** Facts about the cliff mask *)

Module CliffMaskFacts.
Import JsNum CliffDetector CliffMask SlopeAngleFacts.
Open Scope R_scope.

Lemma in_offsets (p d : Z) : In d (offsets p) <-> (- p <= d <= p)%Z.
Proof.
  unfold offsets. rewrite in_map_iff. split.
  - intros (k & <- & Hk). apply in_seq in Hk. lia.
  - intros Hd. exists (Z.to_nat (d + p)). split; [lia|]. apply in_seq. lia.
Qed.

Lemma nth_map_seq {A : Type} (f : nat -> A) (n k : nat) (d : A) :
  (k < n)%nat -> nth k (map f (seq 0 n)) d = f k.
Proof.
  intros Hk. apply nth_error_nth. rewrite nth_error_map, nth_error_seq.
  destruct (Nat.ltb_spec k n); [reflexivity | lia].
Qed.

Lemma maskAt_table (f : nat -> nat -> bool) (height width y x : nat) :
  maskAt (map (fun y => map (f y) (seq 0 width)) (seq 0 height)) y x
  = if (y <? height)%nat && (x <? width)%nat then f y x else false.
Proof.
  unfold maskAt.
  destruct (Nat.ltb_spec y height) as [Hy | Hy].
  - rewrite nth_map_seq by assumption.
    destruct (Nat.ltb_spec x width) as [Hx | Hx]; cbn [andb].
    + now apply nth_map_seq.
    + apply nth_overflow. now rewrite length_map, length_seq.
  - cbn [andb]. rewrite (nth_overflow _ []).
    + now destruct x.
    + now rewrite length_map, length_seq.
Qed.

Lemma pixelDistanceOf_whole (distance resolution : R) :
  resolution <> 0 ->
  pixelDistanceOf distance resolution = Whole (Zceil (distance / resolution)).
Proof.
  intros Hres. unfold pixelDistanceOf.
  destruct (Req_dec_T resolution 0); [contradiction | reflexivity].
Qed.

Lemma detectCliffs_returns (elevationData : list (list (option num)))
    (resolution : R) (params : SlopeParams) :
  resolution <> 0 ->
  detectCliffs elevationData resolution params
  = Some (map (fun y =>
                 map (flagged elevationData resolution params
                              (heightOf elevationData) (widthOf elevationData)
                              (Zceil (horizontalDist params / resolution)) y)
                     (seq 0 (widthOf elevationData)))
              (seq 0 (heightOf elevationData))).
Proof.
  intros Hres. unfold detectCliffs. now rewrite pixelDistanceOf_whole.
Qed.

(** X21.  When the resolution is not zero and the pixel distance is at most
    [2^52], [detectCliffs] returns, and the mask it returns has one row
    for every row of the data, each as long as the first row of the data;
    a position whose elevation is [null], [NaN] or missing is never
    flagged. *)
Theorem detectCliffs_mask_shape (elevationData : list (list (option num)))
    (resolution : R) (params : SlopeParams) :
  scannable params resolution ->
  exists cliffMask : list (list bool),
    detectCliffs elevationData resolution params = Some cliffMask
    /\ length cliffMask = heightOf elevationData
    /\ Forall (fun row => length row = widthOf elevationData) cliffMask
    /\ forall y x : nat,
         elevationOf elevationData y x = None -> maskAt cliffMask y x = false.
Proof.
  intros [Hres _]. rewrite detectCliffs_returns by assumption.
  eexists. split; [reflexivity|]. split; [|split].
  - now rewrite length_map, length_seq.
  - apply Forall_map, Forall_forall. intros y _.
    now rewrite length_map, length_seq.
  - intros y x Hnone. rewrite maskAt_table.
    destruct ((y <? heightOf elevationData)%nat
              && (x <? widthOf elevationData)%nat); [|reflexivity].
    unfold flagged. now rewrite Hnone.
Qed.

Lemma step_scannable : scannable defaultParams 10.
Proof. unfold scannable. cbn [horizontalDist defaultParams]. split; lra. Qed.

Lemma detectCliffs_mask_shape_witness :
  exists cliffMask : list (list bool),
    detectCliffs step 10 defaultParams = Some cliffMask
    /\ length cliffMask = 2%nat.
Proof.
  destruct (detectCliffs_mask_shape step 10 defaultParams step_scannable)
    as (cliffMask & Hmask & Hlen & _).
  exists cliffMask. split; assumption.
Defined.

Lemma legacy_formula (e d : R) :
  d <> 0 ->
  CliffDetector.calculateSlopeAngle e d
  = Num (arcTangent (e / d) * (180 / PI)).
Proof.
  intros Hd. unfold CliffDetector.calculateSlopeAngle.
  destruct (Req_dec_T d 0); [contradiction | reflexivity].
Qed.

(** A quotient of rise over run at least as large passes the test. *)
Lemma steep_enough (e d rise run : R) :
  d <> 0 -> run <> 0 ->
  rise / run <= e / d ->
  nge (CliffDetector.calculateSlopeAngle e d)
      (CliffDetector.calculateSlopeAngle rise run) = true.
Proof.
  intros Hd Hrun Hle. rewrite !legacy_formula by assumption. unfold nge.
  pose proof degrees_factor_pos as Hk.
  pose proof (arcTangent_monotone _ _ Hle) as Hmono.
  destruct (Rle_dec (arcTangent (rise / run) * (180 / PI))
                    (arcTangent (e / d) * (180 / PI))) as [_ | Hn];
    [reflexivity|].
  elim Hn. now apply Rmult_le_compat_r; [left|].
Qed.



Section Search.
Variable elevationData : list (list (option num)).
Variable resolution : R.
Variable params : SlopeParams.
Hypothesis resolution_set : resolution <> 0.

(** What a pass through the body of the innermost loop tests. *)
Lemma probe_spec (height width y x : nat) (currentElev : R) (dy dx : Z) :
  probe elevationData resolution params height width y x currentElev dy dx
  = true
  <-> (dx <> 0 \/ dy <> 0)%Z
      /\ (0 <= Z.of_nat x + dx < Z.of_nat width)%Z
      /\ (0 <= Z.of_nat y + dy < Z.of_nat height)%Z
      /\ exists neighborElev : R,
           elevationOf elevationData (Z.to_nat (Z.of_nat y + dy))
                       (Z.to_nat (Z.of_nat x + dx)) = Some neighborElev
           /\ sqrt (IZR (dx * dx + dy * dy)) * resolution
              <= horizontalDist params
           /\ nge (CliffDetector.calculateSlopeAngle
                     (Rabs (currentElev - neighborElev))
                     (sqrt (IZR (dx * dx + dy * dy)) * resolution))
                  (CliffDetector.calculateSlopeAngle
                     (heightDiff params) (horizontalDist params))
              = true.
Proof.
  unfold probe.
  destruct ((dx =? 0) && (dy =? 0))%Z eqn:Hzero.
  { split; [discriminate|]. intros (Hnz & _). lia. }
  assert (Hnz : (dx <> 0 \/ dy <> 0)%Z) by lia.
  destruct ((Z.of_nat x + dx <? 0) || (Z.of_nat x + dx >=? Z.of_nat width)
            || (Z.of_nat y + dy <? 0) || (Z.of_nat y + dy >=? Z.of_nat height))%Z
    eqn:Hout.
  { split; [discriminate|]. intros (_ & Hx & Hy & _). lia. }
  assert (Hin : (0 <= Z.of_nat x + dx < Z.of_nat width)%Z
                /\ (0 <= Z.of_nat y + dy < Z.of_nat height)%Z) by lia.
  destruct (elevationOf elevationData _ _) as [neighborElev |].
  2:{ split; [discriminate|]. intros (_ & _ & _ & nb & Habs & _). discriminate. }
  cbv zeta.
  destruct (Rlt_dec (horizontalDist params)
                    (sqrt (IZR (dx * dx + dy * dy)) * resolution)) as [Hfar | Hnear].
  { split; [discriminate|]. intros (_ & _ & _ & nb & _ & Hle & _). lra. }
  split.
  - intros Hsteep. repeat (split; [tauto|]).
    exists neighborElev. repeat split; [lra | exact Hsteep].
  - intros (_ & _ & _ & nb & [= <-] & _ & Hsteep). exact Hsteep.
Qed.

(** The search at a position flags it exactly when some pass does. *)
Lemma flagged_scan (height width : nat) (p : Z) (y x : nat) :
  flagged elevationData resolution params height width p y x = true
  <-> exists (currentElev : R) (dy dx : Z),
        elevationOf elevationData y x = Some currentElev
        /\ (- p <= dy <= p)%Z /\ (- p <= dx <= p)%Z
        /\ probe elevationData resolution params height width y x
                 currentElev dy dx = true.
Proof.
  unfold flagged. split.
  - destruct (elevationOf elevationData y x) as [currentElev |]; [|discriminate].
    intros Hfound. apply existsb_exists in Hfound as (dy & Hdy & Hrow).
    apply existsb_exists in Hrow as (dx & Hdx & Hprobe).
    apply in_offsets in Hdy. apply in_offsets in Hdx.
    now exists currentElev, dy, dx.
  - intros (currentElev & dy & dx & -> & Hdy & Hdx & Hprobe).
    apply existsb_exists. exists dy. split; [now apply in_offsets|].
    apply existsb_exists. exists dx. split; [now apply in_offsets|].
    exact Hprobe.
Qed.

(** The pass from the neighbour back to the position tests the same
    distance and the same rise. *)
Lemma probe_symmetric (height width y x : nat) (currentElev : R) (dy dx : Z) :
  (y < height)%nat -> (x < width)%nat ->
  elevationOf elevationData y x = Some currentElev ->
  probe elevationData resolution params height width y x currentElev dy dx
  = true ->
  exists neighborElev : R,
    elevationOf elevationData (Z.to_nat (Z.of_nat y + dy))
                (Z.to_nat (Z.of_nat x + dx)) = Some neighborElev
    /\ probe elevationData resolution params height width
             (Z.to_nat (Z.of_nat y + dy)) (Z.to_nat (Z.of_nat x + dx))
             neighborElev (- dy) (- dx) = true.
Proof.
  intros Hy Hx Hcur Hprobe.
  apply probe_spec in Hprobe as (Hnz & Hxr & Hyr & nb & Hnb & Hnear & Hsteep).
  exists nb. split; [exact Hnb|]. apply probe_spec.
  rewrite !Z2Nat.id by lia.
  replace (Z.of_nat x + dx + - dx)%Z with (Z.of_nat x) by ring.
  replace (Z.of_nat y + dy + - dy)%Z with (Z.of_nat y) by ring.
  rewrite !Nat2Z.id.
  replace (- dx * - dx + - dy * - dy)%Z with (dx * dx + dy * dy)%Z by ring.
  split; [lia|]. split; [lia|]. split; [lia|].
  exists currentElev. rewrite Rabs_minus_sym.
  repeat split; assumption.
Qed.

Lemma maskAt_detectCliffs (cliffMask : list (list bool)) (y x : nat) :
  detectCliffs elevationData resolution params = Some cliffMask ->
  maskAt cliffMask y x = true
  <-> (y < heightOf elevationData)%nat
      /\ (x < widthOf elevationData)%nat
      /\ flagged elevationData resolution params
                 (heightOf elevationData) (widthOf elevationData)
                 (Zceil (horizontalDist params / resolution)) y x = true.
Proof.
  rewrite detectCliffs_returns by assumption. intros [= <-].
  rewrite maskAt_table.
  destruct (Nat.ltb_spec y (heightOf elevationData));
    destruct (Nat.ltb_spec x (widthOf elevationData)); cbn [andb];
    split; try discriminate; try tauto; intros (? & ? & _); lia.
Qed.

End Search.


(** X24.  Flags come in pairs: when the resolution is not zero and the
    pixel distance is at most [2^52], [detectCliffs] returns a mask in
    which every flagged position has another flagged position, namely the
    one it was compared with. *)
Theorem detectCliffs_flags_both_sides
    (elevationData : list (list (option num))) (resolution : R)
    (params : SlopeParams) :
  scannable params resolution ->
  exists cliffMask : list (list bool),
    detectCliffs elevationData resolution params = Some cliffMask
    /\ forall y x : nat,
         maskAt cliffMask y x = true ->
         exists ny nx : nat,
           (ny <> y \/ nx <> x) /\ maskAt cliffMask ny nx = true.
Proof.
  intros [Hres _].
  pose proof (detectCliffs_returns elevationData resolution params Hres)
    as Hmask.
  eexists. split; [exact Hmask|]. intros y x Hflag.
  apply (maskAt_detectCliffs elevationData resolution params Hres
           _ y x Hmask) in Hflag as (Hy & Hx & Hflag).
  apply flagged_scan in Hflag as (cur & dy & dx & Hcur & Hdy & Hdx & Hprobe).
  pose proof Hprobe as Hpass.
  apply (probe_spec elevationData resolution params) in Hpass
    as (Hnz & Hxr & Hyr & _).
  destruct (probe_symmetric elevationData resolution params _ _ y x
              cur dy dx Hy Hx Hcur Hprobe) as (nb & Hnb & Hback).
  exists (Z.to_nat (Z.of_nat y + dy)), (Z.to_nat (Z.of_nat x + dx)).
  split; [lia|].
  apply (maskAt_detectCliffs elevationData resolution params Hres _ _ _ Hmask).
  split; [lia|]. split; [lia|].
  apply flagged_scan. exists nb, (- dy)%Z, (- dx)%Z.
  split; [exact Hnb|]. split; [lia|]. split; [lia|]. exact Hback.
Qed.


(** The step of ten metres is found from its foot. *)
Lemma step_flagged (cliffMask : list (list bool)) :
  detectCliffs step 10 defaultParams = Some cliffMask ->
  maskAt cliffMask 0 0 = true.
Proof.
  intros Hmask.
  assert (Hres : (10 : R) <> 0) by lra.
  apply (maskAt_detectCliffs step 10 defaultParams Hres _ 0 0 Hmask).
  split; [simpl; lia|]. split; [simpl; lia|].
  apply flagged_scan. exists 0, 0%Z, 1%Z.
  assert (Hp : Zceil (horizontalDist defaultParams / 10) = 2%Z).
  { cbn [horizontalDist defaultParams]. apply Zceil_eq. lra. }
  rewrite Hp. split; [reflexivity|]. split; [lia|]. split; [lia|].
  apply (probe_spec step 10 defaultParams).
  split; [lia|]. split; [simpl; lia|]. split; [simpl; lia|].
  exists 10. split; [reflexivity|].
  replace (IZR (1 * 1 + 0 * 0)) with 1 by (simpl; lra).
  rewrite sqrt_1. cbn [horizontalDist heightDiff defaultParams].
  split; [lra|].
  apply steep_enough; [lra | lra |].
  replace (Rabs (0 - 10)) with 10
    by (unfold Rabs; destruct (Rcase_abs (0 - 10)); lra).
  lra.
Qed.



Lemma detectCliffs_flags_both_sides_witness :
  exists (cliffMask : list (list bool)) (ny nx : nat),
    detectCliffs step 10 defaultParams = Some cliffMask
    /\ maskAt cliffMask 0 0 = true
    /\ (ny <> O \/ nx <> O)
    /\ maskAt cliffMask ny nx = true.
Proof.
  destruct (detectCliffs_flags_both_sides step 10 defaultParams step_scannable)
    as (cliffMask & Hmask & Hall).
  pose proof (step_flagged cliffMask Hmask) as Hflag.
  destruct (Hall 0%nat 0%nat Hflag) as (ny & nx & Hother & Hpair).
  exists cliffMask, ny, nx. repeat split; assumption.
Defined.






End CliffMaskFacts.
